(** * Channels DVR Prometheus exporter: a shallow embedding of [exporter.py]

    The development follows the source file top-down:

    - [Re]      the two regular expressions of [fetch_dvr] / [fetch_recordings]
                and Python's backtracking [re.search] on them;
    - [Extract] the three inline extractions (ip, channel, status);
    - [Exporter] the Python values of a decoded response, the gauges of
                [prometheus_client], the three [fetch_*] methods and
                [run_metrics_loop], written in a small trace-and-exception
                monad.

    A text is a [string]: the sequence of the UTF-8 bytes of the Python [str].
    Both patterns and the separator of [split] mention ASCII characters only,
    and no byte of a multi-byte UTF-8 sequence is an ASCII byte, so searching
    the bytes finds what searching the code points finds. *)

From Stdlib Require Import String Ascii List Bool Arith ZArith Lia.
Import ListNotations.

Set Implicit Arguments.
Set Warnings "-register-all".

(* ------------------------------------------------------------------ *)
(** ** Regular expressions, as far as the two patterns need them *)

Module Re.
Local Open Scope string_scope.

(** A single-character matcher: a literal or a bracket range [[lo-hi]]. *)
Inductive atom : Type :=
| Lit (c : ascii)
| Range (lo hi : ascii).

Definition accepts (a : atom) (c : ascii) : bool :=
  match a with
  | Lit x => Ascii.eqb c x
  | Range lo hi =>
      Nat.leb (nat_of_ascii lo) (nat_of_ascii c)
      && Nat.leb (nat_of_ascii c) (nat_of_ascii hi)
  end.

(** [One a] is [a], [Many1 a] is the greedy [a+], [Cat] is juxtaposition and
    [Times n r] is the counted group [(?:r){n}]. *)
Inductive regex : Type :=
| One (a : atom)
| Many1 (a : atom)
| Cat (r1 r2 : regex)
| Times (n : nat) (r : regex).

(** The matcher is the backtracking one of [sre]: it runs on the text that is
    left, [k] is what remains to be matched after the current node, and the
    answer is the text left over after the whole match.  The greedy [a+]
    first tries to take one more character and falls back to [k] only when
    that fails. *)
Fixpoint many1 (a : atom) (s : string) (k : string -> option string)
  : option string :=
  match s with
  | EmptyString => None
  | String c s' =>
      if accepts a c then
        match many1 a s' k with
        | Some rest => Some rest
        | None => k s'
        end
      else None
  end.

Fixpoint times (n : nat)
    (body : string -> (string -> option string) -> option string)
    (s : string) (k : string -> option string) : option string :=
  match n with
  | O => k s
  | S n' => body s (fun s1 => times n' body s1 k)
  end.

Fixpoint bt (r : regex) (s : string) (k : string -> option string)
  : option string :=
  match r with
  | One a =>
      match s with
      | EmptyString => None
      | String c s' => if accepts a c then k s' else None
      end
  | Many1 a => many1 a s k
  | Cat r1 r2 => bt r1 s (fun s1 => bt r2 s1 k)
  | Times n r1 => times n (bt r1) s k
  end.

(** [pattern.match] at the start of [s]: the matched text is the slice of [s]
    up to where the match ended. *)
Definition match_at (r : regex) (s : string) : option string :=
  match bt r s (fun rest => Some rest) with
  | Some rest => Some (substring 0 (String.length s - String.length rest) s)
  | None => None
  end.

(** [re.search]: the start positions are tried from left to right, the end of
    the text included; the value is [m.group()] of the match found. *)
Fixpoint search (r : regex) (s : string) : option string :=
  match match_at r s with
  | Some m => Some m
  | None =>
      match s with
      | EmptyString => None
      | String _ s' => search r s'
      end
  end.

Definition digit : atom := Range "0" "9".

(** [r'[0-9]+(?:\.[0-9]+){3}'] *)
Definition ip_re : regex :=
  Cat (Many1 digit) (Times 3 (Cat (One (Lit ".")) (Many1 digit))).

(** [r'ch[0-9]+'] *)
Definition ch_re : regex :=
  Cat (One (Lit "c")) (Cat (One (Lit "h")) (Many1 digit)).

(** What is left of [s] after its longest prefix of characters of [a], and
    that prefix. *)
Fixpoint drop_run (a : atom) (s : string) : string :=
  match s with
  | EmptyString => EmptyString
  | String c s' => if accepts a c then drop_run a s' else s
  end.

Fixpoint take_run (a : atom) (s : string) : string :=
  match s with
  | EmptyString => EmptyString
  | String c s' => if accepts a c then String c (take_run a s') else EmptyString
  end.

Fixpoint all_in (a : atom) (s : string) : bool :=
  match s with
  | EmptyString => true
  | String c s' => accepts a c && all_in a s'
  end.

(** What is left after a non-empty longest run of [a] at the start of [s]. *)
Definition run1 (a : atom) (s : string) : option string :=
  match s with
  | EmptyString => None
  | String c s' => if accepts a c then Some (drop_run a s') else None
  end.

(** The deterministic reading of the two patterns: every group but the last
    is followed by a character outside the group, so backing off inside it
    never helps, and the last group takes all it can. *)
Definition dot_group (s : string) : option string :=
  match s with
  | String c s' => if Ascii.eqb c "." then run1 digit s' else None
  | EmptyString => None
  end.

Definition ip_rest (s : string) : option string :=
  match run1 digit s with
  | Some r1 =>
      match dot_group r1 with
      | Some r2 =>
          match dot_group r2 with
          | Some r3 => dot_group r3
          | None => None
          end
      | None => None
      end
  | None => None
  end.

Definition ch_rest (s : string) : option string :=
  match s with
  | String c1 (String c2 s') =>
      if Ascii.eqb c1 "c" then
        if Ascii.eqb c2 "h" then run1 digit s' else None
      else None
  | _ => None
  end.

End Re.

(* ------------------------------------------------------------------ *)
(** ** The extractions written inline in [fetch_dvr] and [fetch_recordings] *)

Module Extract.
Local Open Scope string_scope.

(** [ip = re.search(r'[0-9]+(?:\.[0-9]+){3}', status)]
    [ip = ip.group() if ip else '127.0.0.1'] *)
Definition extract_ip (status : string) : string :=
  match Re.search Re.ip_re status with
  | Some m => m
  | None => "127.0.0.1"
  end.

(** [channel = re.search(r'ch[0-9]+', status)]
    [channel = channel.group() if channel else 'ch0'] *)
Definition extract_channel (status : string) : string :=
  match Re.search Re.ch_re status with
  | Some m => m
  | None => "ch0"
  end.

(** ['-' in info] *)
Fixpoint contains (c : ascii) (s : string) : bool :=
  match s with
  | EmptyString => false
  | String x s' => Ascii.eqb x c || contains c s'
  end.

(** [info.split('-')] for a one-character separator: the pieces between the
    occurrences of the separator, in order; never the empty list. *)
Fixpoint split (sep : ascii) (s : string) : list string :=
  match s with
  | EmptyString => [EmptyString]
  | String c s' =>
      if Ascii.eqb c sep then EmptyString :: split sep s'
      else
        match split sep s' with
        | piece :: pieces => String c piece :: pieces
        | [] => [String c EmptyString]
        end
  end.

(** [info.split('-')[0] if '-' in info else 'unknown'].  Index 0 always exists
    ([split] returns at least one piece), so no [IndexError] is modelled. *)
Definition extract_status (info : string) : string :=
  if contains "-" info then
    match split "-" info with
    | piece :: _ => piece
    | [] => EmptyString
    end
  else "unknown".

(** A group of one or more decimal digits, and the shape [a.b.c.d]. *)
Definition digit_group (w : string) : Prop :=
  w <> EmptyString /\ Re.all_in Re.digit w = true.

Definition dotted_quad (m : string) : Prop :=
  exists a b c d,
    digit_group a /\ digit_group b /\ digit_group c /\ digit_group d /\
    m = a ++ "." ++ b ++ "." ++ c ++ "." ++ d.

(** The shape [ch] followed by one or more digits. *)
Definition channel_shape (m : string) : Prop :=
  exists d, digit_group d /\ m = "ch" ++ d.

(** [m] is the first substring of [text] of shape [P]: it occurs in [text],
    no substring of that shape starts further left, and none that starts at
    the same place is longer (the groups are greedy). *)
Definition first_match (P : string -> Prop) (text m : string) : Prop :=
  exists pre post,
    text = pre ++ m ++ post /\ P m /\
    forall pre' m' post',
      text = pre' ++ m' ++ post' -> P m' ->
      String.length pre <= String.length pre' /\
      (String.length pre' = String.length pre ->
       String.length m' <= String.length m).

(** No substring of [text] has shape [P]. *)
Definition no_match (P : string -> Prop) (text : string) : Prop :=
  forall pre m post, text = pre ++ m ++ post -> ~ P m.

(** [pre] is what stands before the first [sep] of [text]. *)
Definition before_first (sep : ascii) (text pre : string) : Prop :=
  exists post,
    text = pre ++ String sep post /\
    forall pre' post',
      text = pre' ++ String sep post' ->
      String.length pre <= String.length pre'.

End Extract.

(* ------------------------------------------------------------------ *)
(** ** Python values, exceptions and the outside world *)

(** A value as [json()] or the geo database hands it to the exporter.  [float]
    is the type of Python floats, kept abstract; a dict is the list of its
    items in insertion order (the keys of a dict are pairwise distinct). *)
Inductive pyval (float : Type) : Type :=
| PyNone
| PyBool (b : bool)
| PyInt (n : Z)
| PyFloat (x : float)
| PyStr (s : string)
| PyList (l : list (pyval float))
| PyDict (items : list (string * pyval float)).

Arguments PyNone {float}.
Arguments PyBool {float} b.
Arguments PyInt {float} n.
Arguments PyStr {float} s.

(** The exception classes the code can meet, each constructor standing for
    the class that is raised; all derive from [Exception].  The type is flat:
    that [JSONDecodeError] is a subclass of [ValueError] in Python is not
    recorded, and no statement below relies on telling the two apart by
    class. *)
Inductive exn : Type :=
| RequestException
| JSONDecodeError
| AttributeError
| TypeError
| ValueError
| OverflowError.

(** What [requests.get(url)] followed by [.json()] gives: [get] raises, or
    there is a response with a status code, whose body decodes or not. *)
Inductive http_outcome (float : Type) : Type :=
| Unreachable
| Response (status_code : Z) (decoded : option (pyval float)).

Arguments Unreachable {float}.

(** What [geolite2.lookup(ip)] does: it raises, it returns [None], or it
    returns a record whose [location] is a pair of floats or [None]. *)
Inductive geo_outcome (float : Type) : Type :=
| GeoRaises (e : exn)
| GeoMiss
| GeoInfo (location : option (float * float)).

Arguments GeoRaises {float} e.
Arguments GeoMiss {float}.

(** [float(n)] of an int rounds to the nearest double and raises
    [OverflowError] when there is none: from [2^1024 - 2^970] on, in absolute
    value. *)
Definition float_int_bound : Z := Eval vm_compute in (2 ^ 1024 - 2 ^ 970)%Z.

Definition representable (n : Z) : bool := (Z.abs n <? float_int_bound)%Z.

Arguments representable n : simpl nomatch.

(** The builtins and the collaborator the methods call. *)
Class Runtime (float : Type) : Type := {
  float_of_int : Z -> float;          (* float(n), for a representable n *)
  float_of_str : string -> option float;      (* float(s); None: ValueError *)
  py_repr : pyval float -> string;            (* str(v) of numbers, lists, dicts *)
  geolite2_lookup : string -> geo_outcome float
}.

(** The three labelled gauges and the two plain ones of [__init__]. *)
Inductive family : Type := Streams | Recordings | Clients.
Inductive scalar : Type := Shows | Airings.

Definition labelnames (f : family) : list string :=
  match f with
  | Streams => ["ip"; "channel"; "latitude"; "longitude"]
  | Recordings => ["name"; "status"; "channel"]
  | Clients =>
      ["app_build"; "app_bundle"; "app_version"; "connected"; "device";
       "hostname"; "id"; "machine_id"; "platform"; "remote_ip"; "seen_at";
       "seen_from"]
  end%string.

(** Everything a method does to the outside, in order: requests, geo lookups,
    the operations on the registry (each of them atomic, under the lock of
    [prometheus_client]) and the sleep. *)
Inductive event (float : Type) : Type :=
| Get (url : string)
| GeoLookup (ip : string)
| Clear (f : family)
| Labels (f : family) (key : list string)
| SetChild (f : family) (key : list string) (v : float)
| SetGauge (g : scalar) (v : float)
| Sleep (seconds : Z).

Arguments Get {float} url.
Arguments GeoLookup {float} ip.
Arguments Clear {float} f.
Arguments Labels {float} f key.
Arguments Sleep {float} seconds.

Inductive result (A : Type) : Type :=
| Ok (a : A)
| Raise (e : exn).

Arguments Raise {A} e.

(** The state of the gauges: per family the children in insertion order, each
    a tuple of label values (already rendered with [str]) and its value. *)
Definition samples (float : Type) : Type := list (list string * float).

Record Registry (float : Type) : Type := {
  streams : samples float;
  recordings : samples float;
  shows : float;
  airings : float;
  clients : samples float
}.

(** [self]: the two configuration fields of [AppMetrics]. *)
Record AppMetrics : Type := {
  channels_api : string;
  polling_interval_seconds : Z
}.

(** The replies of the API during one cycle of the loop. *)
Record cycle_replies (float : Type) : Type := {
  dvr_reply : http_outcome float;
  programs_reply : http_outcome float;
  clients_reply : http_outcome float
}.

(* ------------------------------------------------------------------ *)
(** ** The methods *)

Section Exporter.
Context {float : Type} `{RT : Runtime float}.

(** A computation yields the events it performed and returns or raises. *)
Definition M (A : Type) : Type := (list (event float) * result A)%type.

Definition ret {A : Type} (a : A) : M A := ([], Ok a).

Definition raise {A : Type} (e : exn) : M A := ([], Raise e).

Definition emit (e : event float) : M unit := ([e], Ok tt).

Definition bind {A B : Type} (m : M A) (k : A -> M B) : M B :=
  match m with
  | (t, Ok a) => let (t', r) := k a in (t ++ t', r)
  | (t, Raise e) => (t, Raise e)
  end.

(** [try: m  except Exception as e: h e] *)
Definition try_except {A : Type} (m : M A) (h : exn -> M A) : M A :=
  match m with
  | (t, Ok a) => (t, Ok a)
  | (t, Raise e) => let (t', r) := h e in (t ++ t', r)
  end.

Local Notation "x <- m ;; k" := (bind m (fun x => k))
  (at level 61, m at next level, right associativity).
Local Notation "m ;; k" := (bind m (fun _ => k))
  (at level 61, right associativity).

Fixpoint for_each {A : Type} (l : list A) (body : A -> M unit) : M unit :=
  match l with
  | [] => ret tt
  | x :: l' => body x ;; for_each l' body
  end.

(** *** Builtins *)

Fixpoint lookup (key : string) (items : list (string * pyval float))
  : option (pyval float) :=
  match items with
  | [] => None
  | (k, v) :: items' => if String.eqb k key then Some v else lookup key items'
  end.

(** [d.get(key, default)]: only a dict has [get]. *)
Definition dict_get (d : pyval float) (key : string) (default : pyval float)
  : M (pyval float) :=
  match d with
  | PyDict items =>
      ret (match lookup key items with Some v => v | None => default end)
  | _ => raise AttributeError
  end.

(** [d.items()] *)
Definition dict_items (d : pyval float) : M (list (string * pyval float)) :=
  match d with
  | PyDict items => ret items
  | _ => raise AttributeError
  end.

Fixpoint chars (s : string) : list (pyval float) :=
  match s with
  | EmptyString => []
  | String c s' => PyStr (String c EmptyString) :: chars s'
  end.

(** [for x in v]: a list gives its elements, a dict its keys, a str its
    characters; nothing else is iterable. *)
Definition iterate (v : pyval float) : M (list (pyval float)) :=
  match v with
  | PyList l => ret l
  | PyDict items => ret (map (fun kv => PyStr (fst kv)) items)
  | PyStr s => ret (chars s)
  | _ => raise TypeError
  end.

(** The string argument of [re.search]: anything but a str is a [TypeError]. *)
Definition str_arg (v : pyval float) : M string :=
  match v with
  | PyStr s => ret s
  | _ => raise TypeError
  end.

(** Truth value of a str. *)
Definition truthy (s : string) : bool :=
  match s with
  | EmptyString => false
  | String _ _ => true
  end.

(** [str(v)], as [labels] applies it to every label value. *)
Definition py_str (v : pyval float) : string :=
  match v with
  | PyStr s => s
  | PyNone => "None"
  | PyBool true => "True"
  | PyBool false => "False"
  | _ => py_repr v
  end%string.

(** [float(v)], as [Gauge.set] applies it to its argument. *)
Definition py_float (v : pyval float) : M float :=
  match v with
  | PyInt n =>
      if representable n then ret (float_of_int n) else raise OverflowError
  | PyBool b => ret (float_of_int (Z.b2z b))
  | PyFloat x => ret x
  | PyStr s =>
      match float_of_str s with
      | Some x => ret x
      | None => raise ValueError
      end
  | _ => raise TypeError
  end.

(** *** [requests] *)

Definition requests_get (url : string) (reply : http_outcome float)
  : M (Z * option (pyval float)) :=
  emit (Get url) ;;
  match reply with
  | Unreachable => raise RequestException
  | Response code decoded => ret (code, decoded)
  end.

Definition json (response : Z * option (pyval float)) : M (pyval float) :=
  match snd response with
  | Some v => ret v
  | None => raise JSONDecodeError
  end.

(** *** [prometheus_client] *)

Definition same_names (given declared : list string) : bool :=
  Nat.eqb (length given) (length declared)
  && forallb (fun l => existsb (String.eqb l) given) declared.

(** [gauge.labels(name = value, ...)]: the names must be the declared ones;
    the key of the child is the tuple of the values, each rendered with
    [str], in declared order. *)
Definition labels (f : family) (kwargs : list (string * pyval float))
  : M (family * list string) :=
  if same_names (map fst kwargs) (labelnames f) then
    let key :=
      map (fun l => py_str (match lookup l kwargs with
                            | Some v => v
                            | None => PyNone
                            end)) (labelnames f) in
    emit (Labels f key) ;; ret (f, key)
  else raise ValueError.

(** [child.set(value)] and [gauge.set(value)] *)
Definition child_set (child : family * list string) (value : pyval float)
  : M unit :=
  v <- py_float value ;; emit (SetChild (fst child) (snd child) v).

Definition gauge_set (g : scalar) (value : pyval float) : M unit :=
  v <- py_float value ;; emit (SetGauge g v).

(** *** [geolite2] *)

Definition lookup_ip (ip : string) : M (option (option (float * float))) :=
  emit (GeoLookup ip) ;;
  match geolite2_lookup ip with
  | GeoRaises e => raise e
  | GeoMiss => ret None
  | GeoInfo location => ret (Some location)
  end.

(** Lines 74-81: the coordinates of a stream. *)
Definition geo_coordinates (ip : string) : M (pyval float * pyval float) :=
  if truthy ip && negb (String.eqb ip "127.0.0.1") then
    try_except
      (geo <- lookup_ip ip ;;
       match geo with
       | Some location =>
           match location with
           | Some (latitude, longitude) =>
               ret (PyFloat latitude, PyFloat longitude)
           | None => raise TypeError      (* unpacking None *)
           end
       | None => ret (PyNone, PyNone)
       end)
      (fun _ => ret (PyNone, PyNone))
  else ret (PyNone, PyNone).

(** *** [AppMetrics] *)

Variable self : AppMetrics.

(** The body of the loop of [fetch_dvr], lines 70-88. *)
Definition stream_entry (status : pyval float) : M unit :=
  text <- str_arg status ;;
  let ip := Extract.extract_ip text in
  coordinates <- geo_coordinates ip ;;
  let channel := Extract.extract_channel text in
  if truthy ip && truthy channel then
    child <- labels Streams
               [("ip", PyStr ip); ("channel", PyStr channel);
                ("latitude", fst coordinates);
                ("longitude", snd coordinates)]%string ;;
    child_set child (PyInt 1)
  else ret tt.

(** Lines 90-92: the two plain gauges. *)
Definition publish_guide (status_data : pyval float) : M unit :=
  guide <- dict_get status_data "guide" (PyDict []) ;;
  num_shows <- dict_get guide "num_shows" (PyInt 0) ;;
  gauge_set Shows num_shows ;;
  num_airings <- dict_get guide "num_airings" (PyInt 0) ;;
  gauge_set Airings num_airings.

Definition fetch_dvr (reply : http_outcome float) : M unit :=
  dvr <- requests_get (channels_api self ++ "/dvr") reply ;;
  status_data <- json dvr ;;
  activities <- dict_get status_data "activity" (PyDict []) ;;
  emit (Clear Streams) ;;
  items <- dict_items activities ;;
  for_each items (fun item => stream_entry (snd item)) ;;
  publish_guide status_data.

(** The body of the loop of [fetch_recordings], lines 109-112. *)
Definition recording_entry (name : string) (info : pyval float) : M unit :=
  text <- str_arg info ;;
  let channel := Extract.extract_channel text in
  let status := Extract.extract_status text in
  child <- labels Recordings
             [("name", PyStr name); ("status", PyStr status);
              ("channel", PyStr channel)]%string ;;
  child_set child (PyInt 1).

Definition fetch_recordings (reply : http_outcome float) : M unit :=
  dvr <- requests_get (channels_api self ++ "/dvr/programs") reply ;;
  status_data <- json dvr ;;
  emit (Clear Recordings) ;;
  items <- dict_items status_data ;;
  for_each items (fun item => recording_entry (fst item) (snd item)).

(** The body of the loop of [fetch_clients], lines 129-143. *)
Definition client_entry (client : pyval float) : M unit :=
  remote_ip <- dict_get client "remote_ip" PyNone ;;
  app_build <- dict_get client "app_build" PyNone ;;
  app_bundle <- dict_get client "app_bundle" PyNone ;;
  app_version <- dict_get client "app_version" PyNone ;;
  connected <- dict_get client "connected" PyNone ;;
  device <- dict_get client "device" PyNone ;;
  hostname <- dict_get client "hostname" PyNone ;;
  id <- dict_get client "id" PyNone ;;
  machine_id <- dict_get client "machine_id" PyNone ;;
  platform <- dict_get client "platform" PyNone ;;
  seen_at <- dict_get client "seen_at" PyNone ;;
  seen_from <- dict_get client "seen_from" PyNone ;;
  child <- labels Clients
             [("app_build", app_build); ("app_bundle", app_bundle);
              ("app_version", app_version); ("connected", connected);
              ("device", device); ("hostname", hostname); ("id", id);
              ("machine_id", machine_id); ("platform", platform);
              ("remote_ip", remote_ip); ("seen_at", seen_at);
              ("seen_from", seen_from)]%string ;;
  child_set child (PyInt 1).

Definition fetch_clients (reply : http_outcome float) : M unit :=
  dvr <- requests_get (channels_api self ++ "/dvr/clients/info") reply ;;
  status_data <- json dvr ;;
  emit (Clear Clients) ;;
  entries <- iterate status_data ;;
  for_each entries client_entry.

(** [time.sleep(seconds)] refuses a negative length. *)
Definition sleep (seconds : Z) : M unit :=
  if (seconds <? 0)%Z then raise ValueError else emit (Sleep seconds).

(** One turn of [while True]. *)
Definition cycle (replies : cycle_replies float) : M unit :=
  fetch_dvr (dvr_reply replies) ;;
  fetch_recordings (programs_reply replies) ;;
  fetch_clients (clients_reply replies) ;;
  sleep (polling_interval_seconds self).

(** [run_metrics_loop] against the replies of the first cycles.  The loop has
    no exit: [Ok] says that it is still turning when the given replies are
    used up, [Raise] that an exception left it. *)
Fixpoint run_metrics_loop (server : list (cycle_replies float)) : M unit :=
  match server with
  | [] => ret tt
  | replies :: later => cycle replies ;; run_metrics_loop later
  end.

(** *** The registry behind the events *)

Definition key_eq_dec : forall k1 k2 : list string, {k1 = k2} + {k1 <> k2} :=
  list_eq_dec string_dec.

(** [labels] creates the child, at 0, unless the key is there already. *)
Fixpoint add_child (key : list string) (s : samples float) : samples float :=
  match s with
  | [] => [(key, float_of_int 0)]
  | (k, v) :: s' =>
      if key_eq_dec k key then s else (k, v) :: add_child key s'
  end.

Fixpoint set_child (key : list string) (x : float) (s : samples float)
  : samples float :=
  match s with
  | [] => []
  | (k, v) :: s' =>
      if key_eq_dec k key then (k, x) :: s' else (k, v) :: set_child key x s'
  end.

Definition get_family (f : family) (r : Registry float) : samples float :=
  match f with
  | Streams => streams r
  | Recordings => recordings r
  | Clients => clients r
  end.

Definition with_family (f : family) (s : samples float) (r : Registry float)
  : Registry float :=
  match f with
  | Streams =>
      {| streams := s; recordings := recordings r; shows := shows r;
         airings := airings r; clients := clients r |}
  | Recordings =>
      {| streams := streams r; recordings := s; shows := shows r;
         airings := airings r; clients := clients r |}
  | Clients =>
      {| streams := streams r; recordings := recordings r; shows := shows r;
         airings := airings r; clients := s |}
  end.

Definition apply_event (e : event float) (r : Registry float)
  : Registry float :=
  match e with
  | Clear f => with_family f [] r
  | Labels f key => with_family f (add_child key (get_family f r)) r
  | SetChild f key v => with_family f (set_child key v (get_family f r)) r
  | SetGauge Shows v =>
      {| streams := streams r; recordings := recordings r; shows := v;
         airings := airings r; clients := clients r |}
  | SetGauge Airings v =>
      {| streams := streams r; recordings := recordings r; shows := shows r;
         airings := v; clients := clients r |}
  | Get _ | GeoLookup _ | Sleep _ => r
  end.

(** The registry after a run of events. *)
Definition replay (t : list (event float)) (r : Registry float)
  : Registry float :=
  fold_left (fun r e => apply_event e r) t r.

(** The registries a scrape can see while the events run: the scrape thread
    takes its copy between two operations of the polling thread. *)
Fixpoint observable (t : list (event float)) (r : Registry float)
  : list (Registry float) :=
  r :: match t with
       | [] => []
       | e :: t' => observable t' (apply_event e r)
       end.

Definition keys (s : samples float) : list (list string) := map fst s.

(** *** Vocabulary of the statements *)

(** A reply that [requests.get] or [.json()] fails on. *)
Definition fetch_fails (reply : http_outcome float) : Prop :=
  reply = Unreachable \/ exists code, reply = Response code None.

(** The value [set(1)] stores. *)
Definition one : float := float_of_int 1.

(** The coordinates [geo_coordinates] returns ([None, None] is what the
    source starts from, line 74). *)
Definition coordinates (ip : string) : pyval float * pyval float :=
  match snd (geo_coordinates ip) with
  | Ok c => c
  | Raise _ => (PyNone, PyNone)
  end.

(** The label tuples of the three families, per entry of the response. *)
Definition stream_key (status : string) : list string :=
  let ip := Extract.extract_ip status in
  [ip; Extract.extract_channel status;
   py_str (fst (coordinates ip)); py_str (snd (coordinates ip))].

Definition recording_key (entry : string * string) : list string :=
  [fst entry; Extract.extract_status (snd entry);
   Extract.extract_channel (snd entry)].

Definition client_key (client : list (string * pyval float)) : list string :=
  map (fun l => py_str (match lookup l client with
                        | Some v => v
                        | None => PyNone
                        end)) (labelnames Clients).

(** What one entry of each loop does. *)
Definition stream_events (status : string) : list (event float) :=
  fst (geo_coordinates (Extract.extract_ip status))
  ++ [Labels Streams (stream_key status);
      SetChild Streams (stream_key status) one].

Definition recording_events (entry : string * string) : list (event float) :=
  [Labels Recordings (recording_key entry);
   SetChild Recordings (recording_key entry) one].

Definition client_events (client : list (string * pyval float))
  : list (event float) :=
  [Labels Clients (client_key client); SetChild Clients (client_key client) one].

(** A mapping from str to str, as the items of a decoded object. *)
Definition str_items (entries : list (string * string))
  : list (string * pyval float) :=
  map (fun e => (fst e, PyStr (snd e))) entries.

(** The [activity] of a dvr response is missing, or maps names to texts. *)
Definition activity_entries (d : list (string * pyval float))
    (entries : list (string * string)) : Prop :=
  (lookup "activity" d = None /\ entries = [])
  \/ lookup "activity" d = Some (PyDict (str_items entries)).

(** A count of the guide: the integer under [field], one that [float] can
    take, or 0 when there is no such field; and the two counts of a response,
    0 when it has no guide. *)
Inductive field_count (g : list (string * pyval float)) (field : string)
  : Z -> Prop :=
| field_absent : lookup field g = None -> field_count g field 0
| field_given (n : Z) :
    lookup field g = Some (PyInt n) -> representable n = true ->
    field_count g field n.

Inductive guide_counts (d : list (string * pyval float)) : Z -> Z -> Prop :=
| guide_absent : lookup "guide" d = None -> guide_counts d 0 0
| guide_given (g : list (string * pyval float)) (num_shows num_airings : Z) :
    lookup "guide" d = Some (PyDict g) ->
    field_count g "num_shows" num_shows ->
    field_count g "num_airings" num_airings ->
    guide_counts d num_shows num_airings.

(** The keys given to [set] on the children of [f], in order. *)
Definition family_eq_dec : forall f g : family, {f = g} + {f <> g}.
Proof. decide equality. Defined.

Definition published (f : family) (t : list (event float))
  : list (list string) :=
  flat_map (fun e => match e with
                     | SetChild g key _ =>
                         if family_eq_dec f g then [key] else []
                     | _ => []
                     end) t.

(** One family under one event, and [labels(...).set(1)] on it. *)
Definition apply_family (f : family) (e : event float) (s : samples float)
  : samples float :=
  match e with
  | Clear g => if family_eq_dec f g then [] else s
  | Labels g key => if family_eq_dec f g then add_child key s else s
  | SetChild g key v => if family_eq_dec f g then set_child key v s else s
  | _ => s
  end.

Definition run_family (f : family) (t : list (event float)) (s : samples float)
  : samples float :=
  fold_left (fun s e => apply_family f e s) t s.

Definition put (key : list string) (s : samples float) : samples float :=
  set_child key one (add_child key s).

Definition populate (ks : list (list string)) (s : samples float)
  : samples float :=
  fold_left (fun s key => put key s) ks s.

(** Events that leave every family alone. *)
Definition inert (e : event float) : Prop :=
  match e with
  | Clear _ | Labels _ _ | SetChild _ _ _ => False
  | _ => True
  end.

(** Events that may add children but remove none. *)
Definition keeps (e : event float) : Prop :=
  match e with
  | Clear _ => False
  | _ => True
  end.

(** What a scrape can see of the family [f] while the events [t] run on the
    registry [r]. *)
Definition seen_during (f : family) (t : list (event float))
    (r : Registry float) : list (samples float) :=
  map (get_family f) (observable t r).

(** Events that clear no family and set no child to anything but 1. *)
Definition fills (e : event float) : Prop :=
  match e with
  | Clear _ => False
  | SetChild _ _ v => v = one
  | _ => True
  end.

(** A refresh of [f] that is open to readers: the empty family is among what
    a scrape can see, and whatever it sees is the family as it was before,
    or children whose label tuples the family has in the end, no more of
    them than in the end, each at 1 or still at the 0 it is created with. *)
Definition open_refresh (f : family) (t : list (event float))
    (r : Registry float) : Prop :=
  In [] (seen_during f t r)
  /\ forall s, In s (seen_during f t r) ->
       s = get_family f r
       \/ (incl (keys s) (keys (get_family f (replay t r)))
           /\ length s <= length (get_family f (replay t r))
           /\ forall k v, In (k, v) s -> v = one \/ v = float_of_int 0).

End Exporter.

(* ------------------------------------------------------------------ *)
(** ** A concrete world: floats read as integers, a three-entry geo database *)

Module Demo.
Local Open Scope string_scope.
Local Open Scope Z_scope.

Definition geo_database (ip : string) : geo_outcome Z :=
  if String.eqb ip "10.0.0.5" then GeoInfo (Some (52, 13))
  else if String.eqb ip "999.999.999.999" then GeoRaises ValueError
  else if String.eqb ip "10.0.0.6" then GeoInfo None
  else GeoMiss.

#[global] Instance runtime : Runtime Z := {|
  float_of_int := fun n => n;
  float_of_str := fun _ => None;
  py_repr := fun _ => "<repr>";
  geolite2_lookup := geo_database
|}.

Definition self : AppMetrics :=
  {| channels_api := "http://localhost:8089"; polling_interval_seconds := 5 |}.

Definition activity : list (string * string) :=
  [("a1", "ch12 Streaming from 10.0.0.5")].

Definition dvr_fields : list (string * pyval Z) :=
  [("activity", PyDict (str_items activity));
   ("guide", PyDict [("num_shows", PyInt 40); ("num_airings", PyInt 900)])].

Definition programs : list (string * string) :=
  [("MyShow", "REC-ch5-details")].

Definition client : list (string * pyval Z) :=
  [("id", PyStr "abc"); ("remote_ip", PyStr "1.2.3.4")].

Definition healthy : cycle_replies Z :=
  {| dvr_reply := Response 200 (Some (PyDict dvr_fields));
     programs_reply := Response 200 (Some (PyDict (str_items programs)));
     clients_reply := Response 200 (Some (PyList [PyDict client])) |}.


(** The clients endpoint answers with a body that is not JSON. *)
Definition clients_garbled : cycle_replies Z :=
  {| dvr_reply := dvr_reply healthy;
     programs_reply := programs_reply healthy;
     clients_reply := Response 200 None |}.

Definition fresh : Registry Z :=
  {| streams := []; recordings := []; shows := 0; airings := 0;
     clients := [] |}.

(** The registry after one healthy cycle. *)
Definition warm : Registry Z := replay (fst (cycle self healthy)) fresh.

End Demo.

(* ------------------------------------------------------------------ *)
(** ** The rest of the file: [main] *)

Section Startup.
Context {float : Type} `{RT : Runtime float}.

(** [os.getenv(name, default)] on the environment of the process. *)
Fixpoint getenv (environ : list (string * string)) (name default : string)
  : string :=
  match environ with
  | [] => default
  | (k, v) :: environ' =>
      if String.eqb k name then v else getenv environ' name default
  end.

(** [int(s)] on a str (None: [ValueError]) and whether [start_http_server]
    can bind the port (it raises otherwise). *)
Variable py_int : string -> option Z.
Variable can_bind : Z -> bool.

(** What [main] does before and around the loop. *)
Inductive main_event : Type :=
| StartHttpServer (port : Z)
| Poll (e : event float).

(** How [main] stands after the given replies: [int] refused a setting, the
    server could not start, an exception left the loop, or the loop is still
    turning. *)
Inductive main_exit : Type :=
| BadSetting
| CannotServe
| LoopLeft (e : exn)
| StillPolling.

Definition main (environ : list (string * string))
    (server : list (cycle_replies float)) : list main_event * main_exit :=
  match py_int (getenv environ "POLLING_INTERVAL_SECONDS" "5") with
  | None => ([], BadSetting)
  | Some polling_interval_seconds =>
      match py_int (getenv environ "EXPORTER_PORT" "9877") with
      | None => ([], BadSetting)
      | Some exporter_port =>
          let channels_api :=
            getenv environ "CHANNELS_API" "http://localhost:8089" in
          let app_metrics :=
            {| channels_api := channels_api;
               polling_interval_seconds := polling_interval_seconds |} in
          if can_bind exporter_port then
            let (t, res) := run_metrics_loop app_metrics server in
            (StartHttpServer exporter_port :: map Poll t,
             match res with
             | Ok _ => StillPolling
             | Raise e => LoopLeft e
             end)
          else ([StartHttpServer exporter_port], CannotServe)
      end
  end.

(** The requests among the events of [main]. *)
Definition main_requests (t : list main_event) : list string :=
  flat_map (fun e => match e with
                     | Poll (Get url) => [url]
                     | _ => []
                     end) t.

End Startup.

(* ------------------------------------------------------------------ *)
(** ** More vocabulary *)

Section Observations.
Context {float : Type}.

(** The urls requested, the ips looked up and the sleeps, in order. *)
Definition requests (t : list (event float)) : list string :=
  flat_map (fun e => match e with Get url => [url] | _ => [] end) t.

Definition lookups (t : list (event float)) : list string :=
  flat_map (fun e => match e with GeoLookup ip => [ip] | _ => [] end) t.

Definition sleeps (t : list (event float)) : list Z :=
  flat_map (fun e => match e with Sleep n => [n] | _ => [] end) t.

(** What the sub-step of family [f] may do once its request is out: clear
    [f], create and set children of [f] and, for the dvr sub-step, look ips
    up and set the two plain gauges. *)
Definition refreshes (f : family) (e : event float) : Prop :=
  match e with
  | Clear g | Labels g _ | SetChild g _ _ => g = f
  | GeoLookup _ | SetGauge _ _ => f = Streams
  | Get _ | Sleep _ => False
  end.

Definition is_dict (v : pyval float) : bool :=
  match v with
  | PyDict _ => true
  | _ => false
  end.

Definition is_str (v : pyval float) : bool :=
  match v with
  | PyStr _ => true
  | _ => false
  end.

Definition is_list (v : pyval float) : bool :=
  match v with
  | PyList _ => true
  | _ => false
  end.

(** The three paths of the API. *)
Definition endpoints (base : string) : list string :=
  [base ++ "/dvr"; base ++ "/dvr/programs"; base ++ "/dvr/clients/info"]%string.

End Observations.

Module DemoMore.
Local Open Scope string_scope.
Local Open Scope Z_scope.


(** Two activities on one line each, the second without an address. *)
Definition two_streams : list (string * string) :=
  [("a1", "ch12 Streaming from 10.0.0.5"); ("a2", "ch7 local playback")].

End DemoMore.

(* ------------------------------------------------------------------ *)
(** ** Facts on strings and on the matcher *)

Unset Implicit Arguments.

Module ReFacts.
Import Re.
Local Open Scope string_scope.

Lemma append_assoc (a b c : string) : (a ++ b) ++ c = a ++ b ++ c.
Proof. induction a as [|x a IH]; simpl; [reflexivity | now rewrite IH]. Qed.

Lemma length_append (a b : string) :
  String.length (a ++ b) = String.length a + String.length b.
Proof. induction a as [|x a IH]; simpl; [reflexivity | now rewrite IH]. Qed.

Lemma substring_prefix (m rest : string) :
  substring 0 (String.length m) (m ++ rest) = m.
Proof.
  induction m as [|x m IH]; simpl.
  - destruct rest; reflexivity.
  - now rewrite IH.
Qed.

(** The slice that [match_at] takes is the text the match consumed. *)
Lemma slice_of_split (m rest : string) :
  substring 0 (String.length (m ++ rest) - String.length rest) (m ++ rest) = m.
Proof.
  rewrite length_append.
  replace (String.length m + String.length rest - String.length rest)
    with (String.length m) by lia.
  apply substring_prefix.
Qed.

(** *** Runs of one character class *)

Lemma run_split (a : atom) (s : string) : s = take_run a s ++ drop_run a s.
Proof.
  induction s as [|c s IH]; simpl; [reflexivity|].
  destruct (accepts a c); simpl; [now rewrite <- IH | reflexivity].
Qed.

Lemma take_run_all (a : atom) (s : string) : all_in a (take_run a s) = true.
Proof.
  induction s as [|c s IH]; simpl; [reflexivity|].
  destruct (accepts a c) eqn:E; simpl; [now rewrite E | reflexivity].
Qed.

Lemma drop_run_append (a : atom) (w rest : string) :
  all_in a w = true -> drop_run a (w ++ rest) = drop_run a rest.
Proof.
  induction w as [|c w IH]; simpl; [reflexivity|].
  intros H. apply andb_true_iff in H as [Hc Hw]. rewrite Hc. auto.
Qed.

Lemma drop_run_length (a : atom) (s : string) :
  String.length (drop_run a s) <= String.length s.
Proof.
  induction s as [|c s IH]; simpl; [lia|].
  destruct (accepts a c); simpl; lia.
Qed.

Lemma run1_sound (a : atom) (s rest : string) :
  run1 a s = Some rest ->
  exists w, s = w ++ rest /\ w <> EmptyString /\ all_in a w = true.
Proof.
  destruct s as [|c s]; simpl; [discriminate|].
  destruct (accepts a c) eqn:E; [|discriminate].
  intros [= <-]. exists (String c (take_run a s)). repeat split.
  - simpl. now rewrite <- run_split.
  - discriminate.
  - simpl. now rewrite E, take_run_all.
Qed.

Lemma run1_complete (a : atom) (w rest : string) :
  w <> EmptyString -> all_in a w = true ->
  run1 a (w ++ rest) = Some (drop_run a rest).
Proof.
  destruct w as [|c w]; [congruence|]. simpl. intros _ H.
  apply andb_true_iff in H as [Hc Hw]. rewrite Hc.
  now rewrite drop_run_append.
Qed.

(** *** The greedy loop *)

(** With nothing after it, [a+] takes the longest run. *)
Lemma many1_last (a : atom) (s : string) :
  many1 a s (fun rest => Some rest) = run1 a s.
Proof.
  induction s as [|c s IH]; simpl; [reflexivity|].
  destruct (accepts a c); [|reflexivity].
  rewrite IH. destruct s as [|c' s']; simpl; [reflexivity|].
  destruct (accepts a c'); reflexivity.
Qed.

(** When what follows cannot start with a character of [a], backing off is
    useless: [a+] takes the longest run or the match fails. *)
Lemma many1_committed (a : atom) (k : string -> option string) (s : string) :
  (forall c s', accepts a c = true -> k (String c s') = None) ->
  many1 a s k = match run1 a s with Some rest => k rest | None => None end.
Proof.
  intros Hk. induction s as [|c s IH]; simpl; [reflexivity|].
  destruct (accepts a c); [|reflexivity].
  rewrite IH. destruct s as [|c' s']; simpl; [reflexivity|].
  destruct (accepts a c') eqn:E; [|reflexivity].
  destruct (k (drop_run a s')); [reflexivity|]. now apply Hk.
Qed.

Lemma digit_not_dot (c : ascii) :
  accepts digit c = true -> Ascii.eqb c "." = false.
Proof.
  intros H. destruct (Ascii.eqb_spec c "."); [subst; discriminate | reflexivity].
Qed.

Lemma dot_then_digits (k : string -> option string) (s : string) :
  (forall c s', accepts digit c = true -> k (String c s') = None) ->
  bt (Cat (One (Lit ".")) (Many1 digit)) s k
  = match dot_group s with Some rest => k rest | None => None end.
Proof.
  intros Hk. destruct s as [|c s]; simpl; [reflexivity|].
  destruct (Ascii.eqb c "."); [|reflexivity].
  now apply many1_committed.
Qed.

Lemma dot_then_digits_last (s : string) :
  bt (Cat (One (Lit ".")) (Many1 digit)) s (fun rest => Some rest)
  = dot_group s.
Proof.
  destruct s as [|c s]; simpl; [reflexivity|].
  destruct (Ascii.eqb c "."); [|reflexivity].
  apply many1_last.
Qed.

Lemma dot_group_rejects_digit (k : string -> option string) (c : ascii) (s : string) :
  accepts digit c = true ->
  bt (Cat (One (Lit ".")) (Many1 digit)) (String c s) k = None.
Proof. intros H. simpl. now rewrite (digit_not_dot _ H). Qed.

(** The backtracking matcher on the ip pattern is the deterministic reading. *)
Lemma bt_ip_re (s : string) : bt ip_re s (fun rest => Some rest) = ip_rest s.
Proof.
  unfold ip_re, ip_rest.
  change (bt (Cat (Many1 digit) (Times 3 (Cat (One (Lit ".")) (Many1 digit))))
            s (fun rest => Some rest))
    with (many1 digit s (fun s1 =>
            bt (Cat (One (Lit ".")) (Many1 digit)) s1 (fun s2 =>
              bt (Cat (One (Lit ".")) (Many1 digit)) s2 (fun s3 =>
                bt (Cat (One (Lit ".")) (Many1 digit)) s3
                   (fun rest => Some rest))))).
  rewrite many1_committed
    by (intros; now apply dot_group_rejects_digit).
  destruct (run1 digit s) as [r1|]; [|reflexivity].
  rewrite dot_then_digits
    by (intros; now apply dot_group_rejects_digit).
  destruct (dot_group r1) as [r2|]; [|reflexivity].
  rewrite dot_then_digits
    by (intros; now apply dot_group_rejects_digit).
  destruct (dot_group r2) as [r3|]; [|reflexivity].
  apply dot_then_digits_last.
Qed.

Lemma bt_ch_re (s : string) : bt ch_re s (fun rest => Some rest) = ch_rest s.
Proof.
  unfold ch_re, ch_rest. destruct s as [|c1 [|c2 s]]; simpl.
  - reflexivity.
  - destruct (Ascii.eqb c1 "c"); reflexivity.
  - destruct (Ascii.eqb c1 "c"); [|reflexivity].
    destruct (Ascii.eqb c2 "h"); [|reflexivity].
    apply many1_last.
Qed.

(** *** From the match at one position to the search *)

Section Search.
Variable r : regex.
Variable P : string -> Prop.
Hypothesis bt_sound : forall s rest,
  bt r s (fun rest => Some rest) = Some rest -> exists m, s = m ++ rest /\ P m.
Hypothesis bt_complete : forall m post,
  P m ->
  exists rest, bt r (m ++ post) (fun rest => Some rest) = Some rest /\
               String.length rest <= String.length post.

Lemma match_at_some (s m : string) :
  match_at r s = Some m ->
  P m /\ (exists rest, s = m ++ rest) /\
  forall m' post', s = m' ++ post' -> P m' ->
                   String.length m' <= String.length m.
Proof.
  unfold match_at. destruct (bt r s _) as [rest|] eqn:E; [|discriminate].
  destruct (bt_sound _ _ E) as (m0 & -> & Pm0). rewrite slice_of_split.
  intros [= <-]. split; [assumption|]. split; [now exists rest|].
  intros m' post' Es Pm'.
  destruct (bt_complete _ post' Pm') as (rest' & E' & L).
  rewrite <- Es, E in E'. injection E' as <-.
  apply (f_equal String.length) in Es. rewrite !length_append in Es. lia.
Qed.

Lemma match_at_none (s : string) :
  match_at r s = None -> forall m post, s = m ++ post -> ~ P m.
Proof.
  unfold match_at. destruct (bt r s _) as [rest|] eqn:E; [discriminate|].
  intros _ m post -> Pm. destruct (bt_complete _ post Pm) as (rest & E' & _).
  congruence.
Qed.

Lemma search_step (c : ascii) (s : string) :
  search r (String c s)
  = match match_at r (String c s) with
    | Some m => Some m
    | None => search r s
    end.
Proof. reflexivity. Qed.

Lemma found_at_start (s m : string) :
  match_at r s = Some m -> Extract.first_match P s m.
Proof.
  intros E. destruct (match_at_some _ _ E) as (Pm & (rest & Es) & Long).
  exists EmptyString, rest. split; [exact Es|]. split; [exact Pm|].
  intros pre' m' post' E' Pm'. split; [simpl; lia|].
  destruct pre'; [|discriminate]. intros _. now apply (Long m' post').
Qed.

(** [re.search] returns the first substring of the shape of the pattern, and
    [None] only when the text has none. *)
Lemma search_first (text : string) :
  match search r text with
  | Some m => Extract.first_match P text m
  | None => Extract.no_match P text
  end.
Proof.
  induction text as [|c text IH].
  - simpl. destruct (match_at r EmptyString) as [m|] eqn:E.
    + now apply found_at_start.
    + intros [|x pre] m post E'; [|discriminate].
      now apply (match_at_none _ E m post).
  - rewrite search_step. destruct (match_at r (String c text)) as [m|] eqn:E.
    + now apply found_at_start.
    + destruct (search r text) as [m|].
      * destruct IH as (pre & post & Et & Pm & First).
        exists (String c pre), post. split; [simpl; now rewrite <- Et|].
        split; [exact Pm|]. intros [|x pre'] m' post' E' Pm'.
        -- now destruct (match_at_none _ E m' post' E').
        -- simpl in E'. injection E' as _ E'.
           destruct (First _ _ _ E' Pm') as [L1 L2]. simpl. split; [lia|].
           intros L. apply L2. lia.
      * intros [|x pre] m post E' Pm.
        -- now destruct (match_at_none _ E m post E').
        -- simpl in E'. injection E' as _ E'. exact (IH _ _ _ E' Pm).
Qed.

End Search.

(** *** The two patterns *)

Import Extract.

Lemma dot_group_sound (s rest : string) :
  dot_group s = Some rest ->
  exists w, s = "." ++ w ++ rest /\ digit_group w.
Proof.
  destruct s as [|c s]; simpl; [discriminate|].
  destruct (Ascii.eqb_spec c "."); [subst c|discriminate].
  intros H. destruct (run1_sound _ _ _ H) as (w & -> & Hw & Hall).
  exists w. now repeat split.
Qed.

Lemma dot_group_complete (w rest : string) :
  digit_group w -> dot_group ("." ++ w ++ rest) = Some (drop_run digit rest).
Proof. intros [Hw Hall]. simpl. now apply run1_complete. Qed.

Lemma ip_rest_sound (s rest : string) :
  ip_rest s = Some rest -> exists m, s = m ++ rest /\ dotted_quad m.
Proof.
  unfold ip_rest.
  destruct (run1 digit s) as [r1|] eqn:E1; [|discriminate].
  destruct (dot_group r1) as [r2|] eqn:E2; [|discriminate].
  destruct (dot_group r2) as [r3|] eqn:E3; [|discriminate].
  intros E4.
  destruct (run1_sound _ _ _ E1) as (a & -> & Ha).
  destruct (dot_group_sound _ _ E2) as (b & -> & Hb).
  destruct (dot_group_sound _ _ E3) as (c & -> & Hc).
  destruct (dot_group_sound _ _ E4) as (d & -> & Hd).
  exists (a ++ "." ++ b ++ "." ++ c ++ "." ++ d). split.
  - simpl. repeat (rewrite append_assoc; simpl). reflexivity.
  - now exists a, b, c, d.
Qed.

Lemma ip_rest_complete (m post : string) :
  dotted_quad m ->
  exists rest, ip_rest (m ++ post) = Some rest /\
               String.length rest <= String.length post.
Proof.
  intros (a & b & c & d & Ha & Hb & Hc & Hd & ->).
  exists (drop_run digit post). split; [|apply drop_run_length].
  replace ((a ++ "." ++ b ++ "." ++ c ++ "." ++ d) ++ post)
    with (a ++ "." ++ b ++ "." ++ c ++ "." ++ d ++ post)
    by (simpl; repeat (rewrite append_assoc; simpl); reflexivity).
  unfold ip_rest. destruct Ha as [Ha Hall].
  rewrite (run1_complete _ _ _ Ha Hall).
  change (drop_run digit ("." ++ b ++ "." ++ c ++ "." ++ d ++ post))
    with ("." ++ b ++ "." ++ c ++ "." ++ d ++ post).
  rewrite (dot_group_complete _ _ Hb).
  change (drop_run digit ("." ++ c ++ "." ++ d ++ post))
    with ("." ++ c ++ "." ++ d ++ post).
  rewrite (dot_group_complete _ _ Hc).
  change (drop_run digit ("." ++ d ++ post)) with ("." ++ d ++ post).
  apply (dot_group_complete _ _ Hd).
Qed.

Lemma ch_rest_sound (s rest : string) :
  ch_rest s = Some rest -> exists m, s = m ++ rest /\ channel_shape m.
Proof.
  unfold ch_rest. destruct s as [|c1 [|c2 s]]; try discriminate.
  destruct (Ascii.eqb_spec c1 "c"); [subst c1|discriminate].
  destruct (Ascii.eqb_spec c2 "h"); [subst c2|discriminate].
  intros H. destruct (run1_sound _ _ _ H) as (w & -> & Hw & Hall).
  exists ("ch" ++ w). split; [reflexivity|]. exists w. now repeat split.
Qed.

Lemma ch_rest_complete (m post : string) :
  channel_shape m ->
  exists rest, ch_rest (m ++ post) = Some rest /\
               String.length rest <= String.length post.
Proof.
  intros (d & [Hd Hall] & ->). exists (drop_run digit post).
  split; [|apply drop_run_length]. simpl. now apply run1_complete.
Qed.

Lemma search_ip (text : string) :
  match search ip_re text with
  | Some m => first_match dotted_quad text m
  | None => no_match dotted_quad text
  end.
Proof.
  apply search_first.
  - intros s rest. rewrite bt_ip_re. apply ip_rest_sound.
  - intros m post. rewrite bt_ip_re. apply ip_rest_complete.
Qed.

Lemma search_ch (text : string) :
  match search ch_re text with
  | Some m => first_match channel_shape text m
  | None => no_match channel_shape text
  end.
Proof.
  apply search_first.
  - intros s rest. rewrite bt_ch_re. apply ch_rest_sound.
  - intros m post. rewrite bt_ch_re. apply ch_rest_complete.
Qed.

(** A match of either pattern is not the empty text. *)
Lemma first_match_quad_nonempty (text m : string) :
  first_match dotted_quad text m -> m <> EmptyString.
Proof.
  intros (_ & _ & _ & (a & b & c & d & [Ha _] & _ & _ & _ & ->) & _).
  destruct a; [congruence | discriminate].
Qed.

Lemma first_match_channel_nonempty (text m : string) :
  first_match channel_shape text m -> m <> EmptyString.
Proof. intros (_ & _ & _ & (d & _ & ->) & _). discriminate. Qed.

(** *** [split] and [in] *)

Lemma split_first (sep : ascii) (s : string) :
  contains sep s = true ->
  exists piece pieces post,
    split sep s = piece :: pieces /\ s = piece ++ String sep post /\
    contains sep piece = false.
Proof.
  induction s as [|c s IH]; simpl; [discriminate|].
  destruct (Ascii.eqb_spec c sep) as [->|Hne]; simpl.
  - intros _. now exists EmptyString, (split sep s), s.
  - intros H. destruct (IH H) as (piece & pieces & post & -> & -> & Hp).
    exists (String c piece), pieces, post. repeat split. simpl.
    destruct (Ascii.eqb_spec c sep); [contradiction | exact Hp].
Qed.

Lemma contains_occurrence (sep : ascii) (pre post : string) :
  contains sep (pre ++ String sep post) = true.
Proof.
  induction pre as [|c pre IH]; simpl.
  - now rewrite Ascii.eqb_refl.
  - rewrite IH. apply orb_true_r.
Qed.

Lemma first_occurrence (sep : ascii) (pre post pre' post' : string) :
  contains sep pre = false ->
  pre ++ String sep post = pre' ++ String sep post' ->
  String.length pre <= String.length pre'.
Proof.
  revert pre'. induction pre as [|c pre IH]; intros pre' Hc E; simpl; [lia|].
  simpl in Hc. apply orb_false_iff in Hc as [Hne Hc].
  destruct pre' as [|c' pre']; simpl in E.
  - injection E as -> _. now rewrite Ascii.eqb_refl in Hne.
  - injection E as _ E. specialize (IH _ Hc E). simpl. lia.
Qed.

End ReFacts.

(* ------------------------------------------------------------------ *)
(** ** The extractions *)

Module ExtractFacts.
Import Extract.
Local Open Scope string_scope.

Lemma extract_ip_cases (text : string) :
  first_match dotted_quad text (extract_ip text)
  \/ (no_match dotted_quad text /\ extract_ip text = "127.0.0.1").
Proof.
  unfold extract_ip. pose proof (ReFacts.search_ip text) as H.
  destruct (Re.search Re.ip_re text); [now left | now right].
Qed.

Lemma extract_channel_cases (text : string) :
  first_match channel_shape text (extract_channel text)
  \/ (no_match channel_shape text /\ extract_channel text = "ch0").
Proof.
  unfold extract_channel. pose proof (ReFacts.search_ch text) as H.
  destruct (Re.search Re.ch_re text); [now left | now right].
Qed.

Lemma extract_ip_nonempty (text : string) : extract_ip text <> EmptyString.
Proof.
  destruct (extract_ip_cases text) as [H | [_ ->]]; [|discriminate].
  exact (ReFacts.first_match_quad_nonempty _ _ H).
Qed.

Lemma extract_channel_nonempty (text : string) : extract_channel text <> EmptyString.
Proof.
  destruct (extract_channel_cases text) as [H | [_ ->]]; [|discriminate].
  exact (ReFacts.first_match_channel_nonempty _ _ H).
Qed.

(** C3. For every text, [extract_ip] is the first substring made of four
    groups of one or more digits separated by dots (leftmost start, groups
    greedy, no check against 0-255: [999.999.999.999] is taken as it is), or
    ["127.0.0.1"] when the text has no such substring.  Being a function of
    the text alone, it is total and deterministic. *)
Theorem extract_ip_first_dotted_quad (text : string) :
  (first_match dotted_quad text (extract_ip text)
   \/ (no_match dotted_quad text /\ extract_ip text = "127.0.0.1"))
  /\ extract_ip "999.999.999.999" = "999.999.999.999".
Proof. split; [apply extract_ip_cases | reflexivity]. Qed.

(** C4. For every text, [extract_status] is what stands before the first
    ['-'] when there is one, and ["unknown"] when the text has no ['-'];
    ["REC-showname"] gives ["REC"] and ["noseparator"] gives ["unknown"]. *)
Theorem extract_status_before_first_dash (text : string) :
  (before_first "-" text (extract_status text)
   \/ ((forall pre post, text <> pre ++ String "-" post)
       /\ extract_status text = "unknown"))
  /\ extract_status "REC-showname" = "REC"
  /\ extract_status "noseparator" = "unknown".
Proof.
  split; [|split; reflexivity].
  unfold extract_status. destruct (contains "-" text) eqn:E.
  - left. destruct (ReFacts.split_first _ _ E)
      as (piece & pieces & post & -> & Et & Hp).
    exists post. split; [exact Et|]. intros pre' post' E'.
    rewrite Et in E'. exact (ReFacts.first_occurrence _ _ _ _ _ Hp E').
  - right. split; [|reflexivity]. intros pre post ->.
    now rewrite ReFacts.contains_occurrence in E.
Qed.

End ExtractFacts.

(* ------------------------------------------------------------------ *)
(** ** The methods, run *)

Section ExporterFacts.
Context {float : Type} `{RT : Runtime float}.
Variable self : AppMetrics.

Implicit Types (t : list (event float)) (r : Registry float)
  (s : samples float) (f : family) (key : list string).

(** *** The monad *)

Lemma bind_ok {A B : Type} t (a : A) (k : A -> M B) :
  bind (t, Ok a) k = (t ++ fst (k a), snd (k a)).
Proof. simpl. now destruct (k a). Qed.

Lemma bind_run {A B : Type} (m : M A) (k : A -> M B) t (a : A) :
  m = (t, Ok a) -> bind m k = (t ++ fst (k a), snd (k a)).
Proof. intros ->. apply bind_ok. Qed.

(** *** The geo lookup *)

Lemma geo_coordinates_run (ip : string) :
  geo_coordinates ip = (fst (geo_coordinates ip), Ok (coordinates ip)).
Proof.
  unfold coordinates, geo_coordinates, lookup_ip.
  destruct (truthy ip && negb (ip =? "127.0.0.1")%string); [|reflexivity].
  simpl. destruct (geolite2_lookup ip) as [e| |[[lat long]|]]; reflexivity.
Qed.

Lemma geo_events (ip : string) :
  fst (geo_coordinates ip)
  = if truthy ip && negb (ip =? "127.0.0.1")%string then [GeoLookup ip] else [].
Proof.
  unfold geo_coordinates, lookup_ip.
  destruct (truthy ip && negb (ip =? "127.0.0.1")%string); [|reflexivity].
  simpl. destruct (geolite2_lookup ip) as [e| |[[lat long]|]]; reflexivity.
Qed.

Lemma geo_events_inert (ip : string) (e : event float) :
  In e (fst (geo_coordinates ip)) -> e = GeoLookup ip.
Proof.
  rewrite geo_events.
  destruct (truthy ip && negb (ip =? "127.0.0.1")%string); simpl; intuition.
Qed.

(** *** One entry of each loop *)

Lemma truthy_nonempty (x : string) : x <> EmptyString -> truthy x = true.
Proof. destruct x; [congruence | reflexivity]. Qed.

(** The guard of line 87 holds whatever the status text. *)
Lemma guard_holds (text : string) :
  truthy (Extract.extract_ip text) && truthy (Extract.extract_channel text)
  = true.
Proof.
  rewrite (truthy_nonempty _ (ExtractFacts.extract_ip_nonempty text)).
  now rewrite (truthy_nonempty _ (ExtractFacts.extract_channel_nonempty text)).
Qed.

Lemma stream_entry_run (text : string) :
  stream_entry (PyStr text) = (stream_events text, Ok tt).
Proof.
  unfold stream_entry, str_arg, ret. rewrite bind_ok. cbv beta.
  rewrite (bind_run _ _ _ _ (geo_coordinates_run _)), guard_holds.
  reflexivity.
Qed.

Lemma recording_entry_run (entry : string * string) :
  recording_entry (fst entry) (PyStr (snd entry))
  = (recording_events entry, Ok tt).
Proof. reflexivity. Qed.

Lemma client_entry_run (client : list (string * pyval float)) :
  client_entry (PyDict client) = (client_events client, Ok tt).
Proof. reflexivity. Qed.

(** *** Replaying events on the registry, family by family *)

Lemma replay_app t1 t2 r : replay (t1 ++ t2) r = replay t2 (replay t1 r).
Proof. apply fold_left_app. Qed.

Lemma run_family_app f t1 t2 s :
  run_family f (t1 ++ t2) s = run_family f t2 (run_family f t1 s).
Proof. apply fold_left_app. Qed.

Lemma get_family_apply f (e : event float) r :
  get_family f (apply_event e r) = apply_family f e (get_family f r).
Proof.
  destruct e as [url|ip|g|g key|g key v|[|] v|secs]; simpl; try reflexivity;
    destruct f, g; reflexivity.
Qed.

Lemma get_family_replay f t r :
  get_family f (replay t r) = run_family f t (get_family f r).
Proof.
  revert r. induction t as [|e t IH]; intros r; simpl; [reflexivity|].
  now rewrite IH, get_family_apply.
Qed.

Lemma inert_apply f (e : event float) s : inert e -> apply_family f e s = s.
Proof. destruct e; simpl; intros H; now try contradiction. Qed.

Lemma run_family_inert f t s : Forall inert t -> run_family f t s = s.
Proof.
  intros H. revert s. induction H as [|e t He _ IH]; intros s; simpl;
    [reflexivity|].
  now rewrite inert_apply, IH.
Qed.

(** *** [labels(...).set(1)] on the list of children *)

Lemma put_nil key : put key [] = [(key, one)].
Proof.
  unfold put. simpl. destruct (key_eq_dec key key); [reflexivity | contradiction].
Qed.

Lemma put_cons key (k : list string) (v : float) s :
  put key ((k, v) :: s)
  = if key_eq_dec k key then (k, one) :: s else (k, v) :: put key s.
Proof.
  unfold put. simpl. destruct (key_eq_dec k key) as [E|E]; simpl.
  - destruct (key_eq_dec k key); [reflexivity | contradiction].
  - destruct (key_eq_dec k key); [contradiction | reflexivity].
Qed.

Lemma put_keys key s (k : list string) :
  In k (keys (put key s)) <-> k = key \/ In k (keys s).
Proof.
  induction s as [|[k0 v0] s IH].
  - rewrite put_nil. simpl. intuition.
  - rewrite put_cons. destruct (key_eq_dec k0 key) as [->|E]; simpl.
    + intuition.
    + unfold keys in IH. rewrite IH. intuition.
Qed.

Lemma put_values key s :
  (forall k v, In (k, v) s -> v = one) ->
  forall k v, In (k, v) (put key s) -> v = one.
Proof.
  induction s as [|[k0 v0] s IH]; intros H k v.
  - rewrite put_nil. intros [[= _ <-]|[]]. reflexivity.
  - rewrite put_cons. destruct (key_eq_dec k0 key) as [->|E].
    + intros [[= _ <-]|Hin]; [reflexivity|]. apply (H k v). now right.
    + intros [[= <- <-]|Hin].
      * apply (H k0 v0). now left.
      * apply (IH (fun k v Hs => H k v (or_intror Hs)) k v Hin).
Qed.

Lemma put_nodup key s : NoDup (keys s) -> NoDup (keys (put key s)).
Proof.
  induction s as [|[k0 v0] s IH]; intros H.
  - rewrite put_nil. simpl. constructor; [intros [] | constructor].
  - rewrite put_cons. destruct (key_eq_dec k0 key) as [->|E]; [exact H|].
    simpl in *. inversion H as [|? ? Hk Hs]; subst. constructor; [|auto].
    intros Hin. apply put_keys in Hin as [->|Hin]; [congruence | contradiction].
Qed.

Lemma populate_keys ks s (k : list string) :
  In k (keys (populate ks s)) <-> In k ks \/ In k (keys s).
Proof.
  revert s. induction ks as [|key ks IH]; intros s; simpl.
  - intuition.
  - unfold populate in *. simpl. rewrite IH, put_keys. intuition.
Qed.

Lemma populate_values ks s :
  (forall k v, In (k, v) s -> v = one) ->
  forall k v, In (k, v) (populate ks s) -> v = one.
Proof.
  revert s. induction ks as [|key ks IH]; intros s H; [exact H|].
  apply (IH (put key s)). now apply put_values.
Qed.

Lemma populate_nodup ks s : NoDup (keys s) -> NoDup (keys (populate ks s)).
Proof.
  revert s. induction ks as [|key ks IH]; intros s H; [exact H|].
  apply (IH (put key s)). now apply put_nodup.
Qed.

(** A loop whose every entry does [labels(key).set(1)] populates the family
    with the keys of its entries. *)
Lemma run_entries {A : Type} f (ev : A -> list (event float))
    (key : A -> list string) (l : list A) s :
  (forall x s', run_family f (ev x) s' = put (key x) s') ->
  run_family f (flat_map ev l) s = populate (map key l) s.
Proof.
  intros H. revert s. induction l as [|x l IH]; intros s; simpl;
    [reflexivity|].
  now rewrite run_family_app, H, IH.
Qed.

Lemma geo_coordinates_inert (ip : string) :
  Forall inert (fst (geo_coordinates ip)).
Proof.
  apply Forall_forall. intros e He. now rewrite (geo_events_inert _ _ He).
Qed.

Lemma run_stream_events (text : string) s :
  run_family Streams (stream_events text) s = put (stream_key text) s.
Proof.
  unfold stream_events. rewrite run_family_app.
  now rewrite (run_family_inert _ _ _ (geo_coordinates_inert _)).
Qed.

Lemma run_recording_events (entry : string * string) s :
  run_family Recordings (recording_events entry) s = put (recording_key entry) s.
Proof. reflexivity. Qed.

Lemma run_client_events (client : list (string * pyval float)) s :
  run_family Clients (client_events client) s = put (client_key client) s.
Proof. reflexivity. Qed.

(** *** The three sub-steps on a reply that decodes *)

Lemma for_each_streams (entries : list (string * string)) :
  for_each (str_items entries) (fun item => stream_entry (snd item))
  = (flat_map (fun e => stream_events (snd e)) entries, Ok tt).
Proof.
  induction entries as [|e entries IH]; simpl; [reflexivity|].
  now rewrite stream_entry_run, IH.
Qed.

Lemma for_each_recordings (entries : list (string * string)) :
  for_each (str_items entries)
    (fun item => recording_entry (fst item) (snd item))
  = (flat_map recording_events entries, Ok tt).
Proof.
  induction entries as [|e entries IH]; simpl; [reflexivity|].
  now rewrite IH.
Qed.

Lemma for_each_clients (cs : list (list (string * pyval float))) :
  for_each (map (fun c => PyDict c) cs) client_entry
  = (flat_map client_events cs, Ok tt).
Proof.
  induction cs as [|c cs IH]; [reflexivity|].
  change (for_each (map (fun c => PyDict c) (c :: cs)) client_entry)
    with (bind (client_entry (PyDict c))
            (fun _ => for_each (map (fun c => PyDict c) cs) client_entry)).
  now rewrite client_entry_run, IH.
Qed.

Lemma fetch_dvr_run (code : Z) (d : list (string * pyval float))
    (entries : list (string * string)) :
  activity_entries d entries ->
  fetch_dvr self (Response code (Some (PyDict d)))
  = (Get (channels_api self ++ "/dvr") :: Clear Streams
       :: flat_map (fun e => stream_events (snd e)) entries
       ++ fst (publish_guide (PyDict d)),
     snd (publish_guide (PyDict d))).
Proof.
  intros H. unfold fetch_dvr, requests_get, json, dict_get, dict_items.
  destruct H as [[H ->]|H]; simpl; rewrite H; simpl.
  - now destruct (publish_guide (PyDict d)).
  - rewrite for_each_streams. now destruct (publish_guide (PyDict d)).
Qed.

Lemma fetch_recordings_run (code : Z) (entries : list (string * string)) :
  fetch_recordings self (Response code (Some (PyDict (str_items entries))))
  = (Get (channels_api self ++ "/dvr/programs") :: Clear Recordings
       :: flat_map recording_events entries,
     Ok tt).
Proof.
  unfold fetch_recordings, requests_get, json, dict_items. simpl.
  now rewrite for_each_recordings.
Qed.

Lemma fetch_clients_run (code : Z) (cs : list (list (string * pyval float))) :
  fetch_clients self
    (Response code (Some (PyList (map (fun c => PyDict c) cs))))
  = (Get (channels_api self ++ "/dvr/clients/info") :: Clear Clients
       :: flat_map client_events cs,
     Ok tt).
Proof.
  unfold fetch_clients, requests_get, json, iterate. simpl.
  now rewrite for_each_clients.
Qed.

Lemma publish_guide_run (d : list (string * pyval float)) (ns na : Z) :
  guide_counts d ns na ->
  publish_guide (PyDict d)
  = ([SetGauge Shows (float_of_int ns); SetGauge Airings (float_of_int na)],
     Ok tt).
Proof.
  intros [H | g n1 n2 H [H1|n1' H1 R1] [H2|n2' H2 R2]];
    unfold publish_guide, dict_get, gauge_set, py_float; simpl; rewrite H;
    simpl; try rewrite H1; try rewrite H2; simpl;
    try rewrite R1; simpl; try rewrite R2; reflexivity.
Qed.

(** A failed fetch or decode: the request is the only event. *)
Lemma fetch_dvr_fails (reply : http_outcome float) :
  fetch_fails reply ->
  exists e, fetch_dvr self reply = ([Get (channels_api self ++ "/dvr")], Raise e).
Proof. intros [->|[code ->]]; eexists; reflexivity. Qed.

Lemma fetch_recordings_fails (reply : http_outcome float) :
  fetch_fails reply ->
  exists e, fetch_recordings self reply
            = ([Get (channels_api self ++ "/dvr/programs")], Raise e).
Proof. intros [->|[code ->]]; eexists; reflexivity. Qed.

Lemma fetch_clients_fails (reply : http_outcome float) :
  fetch_fails reply ->
  exists e, fetch_clients self reply
            = ([Get (channels_api self ++ "/dvr/clients/info")], Raise e).
Proof. intros [->|[code ->]]; eexists; reflexivity. Qed.

Lemma bind_all {A B : Type} (P : event float -> Prop)
    (m : @M float A) (k : A -> @M float B) :
  Forall P (fst m) -> (forall a, Forall P (fst (k a))) ->
  Forall P (fst (bind m k)).
Proof.
  destruct m as [t [a|e]]; simpl; intros Hm Hk; [|exact Hm].
  specialize (Hk a). destruct (k a) as [t' res]. simpl in *.
  apply Forall_app. now split.
Qed.

Lemma for_each_all {A : Type} (P : event float -> Prop) (l : list A)
    (body : A -> @M float unit) :
  (forall x, Forall P (fst (body x))) -> Forall P (fst (for_each l body)).
Proof.
  intros H. induction l as [|x l IH]; simpl; [constructor|].
  apply bind_all; [apply H | intros _; exact IH].
Qed.

Lemma dict_get_silent (v : pyval float) (field : string) (default : pyval float) :
  fst (dict_get v field default) = [].
Proof. now destruct v. Qed.

Lemma gauge_set_inert (g : scalar) (v : pyval float) :
  Forall inert (fst (gauge_set g v)).
Proof.
  unfold gauge_set, py_float.
  destruct v as [|b|n|x|str|l|items]; simpl;
    try destruct (representable n); try destruct (float_of_str str);
    simpl; repeat constructor.
Qed.

(** Whatever the response, the two plain gauges are all [publish_guide]
    touches. *)
Lemma publish_guide_inert (v : pyval float) :
  Forall inert (fst (publish_guide v)).
Proof.
  unfold publish_guide.
  apply bind_all; [rewrite dict_get_silent; constructor | intros guide].
  apply bind_all; [rewrite dict_get_silent; constructor | intros num_shows].
  apply bind_all; [apply gauge_set_inert | intros _].
  apply bind_all; [rewrite dict_get_silent; constructor | intros num_airings].
  apply gauge_set_inert.
Qed.

Lemma published_app f t1 t2 :
  published f (t1 ++ t2) = published f t1 ++ published f t2.
Proof. apply flat_map_app. Qed.

Lemma published_inert f t : Forall inert t -> published f t = [].
Proof.
  induction 1 as [|e t He _ IH]; simpl; [reflexivity|].
  rewrite IH. destruct e; simpl in *; try reflexivity; contradiction.
Qed.

Lemma published_stream_events (text : string) :
  published Streams (stream_events text) = [stream_key text].
Proof.
  unfold stream_events.
  now rewrite published_app, (published_inert _ _ (geo_coordinates_inert _)).
Qed.

Lemma published_streams (entries : list (string * string)) :
  published Streams (flat_map (fun e => stream_events (snd e)) entries)
  = map (fun e => stream_key (snd e)) entries.
Proof.
  induction entries as [|e entries IH]; simpl; [reflexivity|].
  now rewrite published_app, published_stream_events, IH.
Qed.

Lemma populate_member ks (k : list string) :
  In k ks -> In (k, one) (populate ks []).
Proof.
  intros H.
  assert (Hk : In k (keys (populate ks []))) by (apply populate_keys; now left).
  apply in_map_iff in Hk as ([k' v] & <- & Hin).
  now rewrite <- (populate_values ks [] (fun _ _ F => match F with end) _ _ Hin).
Qed.

(** The streams family after a dvr sub-step whose reply decodes to an object
    with a well-formed activity. *)
Lemma streams_after_fetch_dvr (code : Z) (d : list (string * pyval float))
    (entries : list (string * string)) r :
  activity_entries d entries ->
  streams (replay (fst (fetch_dvr self (Response code (Some (PyDict d))))) r)
  = populate (map (fun e => stream_key (snd e)) entries) [].
Proof.
  intros H. change (streams ?x) with (get_family Streams x).
  rewrite get_family_replay, (fetch_dvr_run _ _ _ H). simpl fst.
  change (run_family Streams (?a :: ?b :: ?t) ?s) with (run_family Streams t []).
  rewrite run_family_app.
  rewrite (run_family_inert _ _ _ (publish_guide_inert _)).
  apply run_entries. intros x s'. apply run_stream_events.
Qed.

Lemma recordings_after_fetch (code : Z) (entries : list (string * string)) r :
  recordings (replay (fst (fetch_recordings self
                (Response code (Some (PyDict (str_items entries)))))) r)
  = populate (map recording_key entries) [].
Proof.
  change (recordings ?x) with (get_family Recordings x).
  rewrite get_family_replay, fetch_recordings_run. simpl fst.
  change (run_family Recordings (?a :: ?b :: ?t) ?s)
    with (run_family Recordings t []).
  apply run_entries. intros x s'. apply run_recording_events.
Qed.

Lemma clients_after_fetch (code : Z) (cs : list (list (string * pyval float))) r :
  clients (replay (fst (fetch_clients self
             (Response code (Some (PyList (map (fun c => PyDict c) cs)))))) r)
  = populate (map client_key cs) [].
Proof.
  change (clients ?x) with (get_family Clients x).
  rewrite get_family_replay, fetch_clients_run. simpl fst.
  change (run_family Clients (?a :: ?b :: ?t) ?s) with (run_family Clients t []).
  apply run_entries. intros x s'. apply run_client_events.
Qed.

Lemma populated_exactly ks (k : list string) :
  In k (keys (populate ks [])) <-> In k ks.
Proof. rewrite populate_keys. simpl. intuition. Qed.

Lemma populated_ones ks (k : list string) (v : float) :
  In (k, v) (populate ks []) -> v = one.
Proof. apply populate_values. intros ? ? []. Qed.

(* ------------------------------------------------------------------ *)
(** *** The claims on the sub-steps *)

(** C5. For every text, [extract_channel] is the first substring made of
    [ch] and one or more digits, or ["ch0"] when the text has none; and the
    channel label of a stream (from its status text) and the channel label
    of a recording (from its info text) are both this extraction. *)
Theorem extract_channel_first_ch_digits (text : string) :
  (Extract.first_match Extract.channel_shape text (Extract.extract_channel text)
   \/ (Extract.no_match Extract.channel_shape text
       /\ Extract.extract_channel text = "ch0"%string))
  /\ (exists t ip latitude longitude,
        let key := [ip; Extract.extract_channel text; latitude; longitude] in
        stream_entry (PyStr text)
        = (t ++ [Labels Streams key; SetChild Streams key one], Ok tt))
  /\ (forall name,
        let key :=
          [name; Extract.extract_status text; Extract.extract_channel text] in
        recording_entry name (PyStr text)
        = ([Labels Recordings key; SetChild Recordings key one], Ok tt)).
Proof.
  split; [apply ExtractFacts.extract_channel_cases|]. split.
  - eexists _, _, _, _. cbv zeta. rewrite stream_entry_run. reflexivity.
  - intros name. exact (recording_entry_run (name, text)).
Qed.

(** C6. For the ip ["127.0.0.1"] the geo backend is not called and both
    coordinates are [None].  For any ip the lookup never raises out of
    [geo_coordinates]: when the backend raises, finds nothing or has no
    location, both coordinates are [None]; and the loop over the activity
    entries goes through every entry, whatever the lookups did. *)
Theorem geo_lookup_skipped_or_absorbed :
  geo_coordinates "127.0.0.1" = ([], Ok (PyNone, PyNone))
  /\ (forall ip, exists t c,
        geo_coordinates ip = (t, Ok c)
        /\ forall e, In e t -> e = GeoLookup ip)
  /\ (forall ip,
        (exists e, geolite2_lookup ip = GeoRaises e)
        \/ geolite2_lookup ip = GeoMiss
        \/ geolite2_lookup ip = GeoInfo None ->
        coordinates ip = (PyNone, PyNone))
  /\ (forall entries,
        for_each (str_items entries) (fun item => stream_entry (snd item))
        = (flat_map (fun e => stream_events (snd e)) entries, Ok tt)).
Proof.
  split; [reflexivity|]. split; [|split].
  - intros ip. exists (fst (geo_coordinates ip)), (coordinates ip).
    split; [apply geo_coordinates_run | apply geo_events_inert].
  - intros ip H. unfold coordinates, geo_coordinates, lookup_ip.
    destruct (truthy ip && negb (ip =? "127.0.0.1")%string); [|reflexivity].
    destruct H as [[e H]|[H|H]]; simpl; rewrite H; reflexivity.
  - apply for_each_streams.
Qed.

(** C7, as the code has it.  When [requests.get] raises or the body does not
    decode, the request is the only thing the sub-step did: no family is
    cleared, and the registry after the sub-step is the registry before it.
    A status code is no failure for the code: it is never read, and a reply
    is handled exactly as a reply with any other status code and the same
    body. *)
Theorem failed_fetch_keeps_registry (reply : http_outcome float) r :
  fetch_fails reply ->
  (fst (fetch_dvr self reply) = [Get (channels_api self ++ "/dvr")]
   /\ replay (fst (fetch_dvr self reply)) r = r)
  /\ (fst (fetch_recordings self reply)
      = [Get (channels_api self ++ "/dvr/programs")]
      /\ replay (fst (fetch_recordings self reply)) r = r)
  /\ (fst (fetch_clients self reply)
      = [Get (channels_api self ++ "/dvr/clients/info")]
      /\ replay (fst (fetch_clients self reply)) r = r)
  /\ (forall (code code' : Z) (decoded : option (pyval float)),
        fetch_dvr self (Response code decoded)
        = fetch_dvr self (Response code' decoded)
        /\ fetch_recordings self (Response code decoded)
           = fetch_recordings self (Response code' decoded)
        /\ fetch_clients self (Response code decoded)
           = fetch_clients self (Response code' decoded)).
Proof.
  intros H.
  destruct (fetch_dvr_fails _ H) as [e1 ->].
  destruct (fetch_recordings_fails _ H) as [e2 ->].
  destruct (fetch_clients_fails _ H) as [e3 ->].
  repeat split.
Qed.


(** C9. After a sub-step whose reply decodes to the expected shape, the
    family holds exactly the label tuples of the entries of that reply, each
    once and each with value 1, whatever the family held before: a tuple of
    an earlier cycle that the reply does not give is gone. *)
Theorem families_replaced_each_cycle (code : Z)
    (d : list (string * pyval float)) (activity programs : list (string * string))
    (cs : list (list (string * pyval float))) r :
  activity_entries d activity ->
  let after_dvr :=
    replay (fst (fetch_dvr self (Response code (Some (PyDict d))))) r in
  let after_programs :=
    replay (fst (fetch_recordings self
              (Response code (Some (PyDict (str_items programs)))))) r in
  let after_clients :=
    replay (fst (fetch_clients self
              (Response code (Some (PyList (map (fun c => PyDict c) cs)))))) r in
  ((forall k, In k (keys (streams after_dvr))
              <-> In k (map (fun e => stream_key (snd e)) activity))
   /\ NoDup (keys (streams after_dvr))
   /\ forall k v, In (k, v) (streams after_dvr) -> v = one)
  /\ ((forall k, In k (keys (recordings after_programs))
                 <-> In k (map recording_key programs))
      /\ NoDup (keys (recordings after_programs))
      /\ forall k v, In (k, v) (recordings after_programs) -> v = one)
  /\ ((forall k, In k (keys (clients after_clients))
                 <-> In k (map client_key cs))
      /\ NoDup (keys (clients after_clients))
      /\ forall k v, In (k, v) (clients after_clients) -> v = one).
Proof.
  intros H. cbv zeta.
  rewrite (streams_after_fetch_dvr _ _ _ _ H), recordings_after_fetch,
    clients_after_fetch.
  repeat split;
    try apply populated_exactly; try apply populated_ones;
    apply populate_nodup; constructor.
Qed.

(** C10. For every entry of the activity mapping the guard of line 87 holds
    (neither extraction gives the empty string), so the loop does one
    [labels(...).set(1)] per entry, in order, and every entry has its sample,
    with value 1, in [channels_streams] after the sub-step. *)
Theorem every_activity_entry_published (code : Z)
    (d : list (string * pyval float)) (entries : list (string * string)) r :
  activity_entries d entries ->
  let t := fst (fetch_dvr self (Response code (Some (PyDict d)))) in
  (forall e, In e entries ->
     Extract.extract_ip (snd e) <> EmptyString
     /\ Extract.extract_channel (snd e) <> EmptyString
     /\ truthy (Extract.extract_ip (snd e))
        && truthy (Extract.extract_channel (snd e)) = true)
  /\ published Streams t = map (fun e => stream_key (snd e)) entries
  /\ (forall e, In e entries -> In (stream_key (snd e), one) (streams (replay t r))).
Proof.
  intros H. cbv zeta. split; [|split].
  - intros e _. split; [apply ExtractFacts.extract_ip_nonempty|].
    split; [apply ExtractFacts.extract_channel_nonempty | apply guard_holds].
  - rewrite (fetch_dvr_run _ _ _ H). simpl fst.
    change (published Streams (?a :: ?b :: ?t)) with (published Streams t).
    rewrite published_app, published_streams.
    rewrite (published_inert _ _ (publish_guide_inert _)). apply app_nil_r.
  - intros e He. rewrite (streams_after_fetch_dvr _ _ _ _ H).
    apply populate_member. now apply (in_map (fun e => stream_key (snd e))).
Qed.

(* ------------------------------------------------------------------ *)
(** *** The loop *)

Lemma loop_goes_on (before rest : list (cycle_replies float)) :
  (forall c, In c before -> snd (cycle self c) = Ok tt) ->
  run_metrics_loop self (before ++ rest)
  = (flat_map (fun c => fst (cycle self c)) before
       ++ fst (run_metrics_loop self rest),
     snd (run_metrics_loop self rest)).
Proof.
  induction before as [|c before IH]; intros H; simpl.
  - now destruct (run_metrics_loop self rest).
  - pose proof (H c (or_introl eq_refl)) as Hc.
    destruct (cycle self c) as [t [[]|e]]; [|discriminate]. simpl.
    rewrite IH by (intros; apply H; now right). simpl.
    now rewrite app_assoc.
Qed.








(* ------------------------------------------------------------------ *)
(** *** What a scrape can see during a refresh *)

Lemma observable_prefix t r (seen : Registry float) :
  In seen (observable t r) ->
  exists t1 t2, t = t1 ++ t2 /\ seen = replay t1 r.
Proof.
  revert r. induction t as [|e t IH]; intros r; simpl.
  - intros [<-|[]]. now exists [], [].
  - intros [<-|H].
    + now exists [], (e :: t).
    + destruct (IH _ H) as (t1 & t2 & -> & ->). now exists (e :: t1), t2.
Qed.

Lemma add_child_grows key s :
  incl (keys s) (keys (add_child key s)) /\ length s <= length (add_child key s).
Proof.
  induction s as [|[k v] s [IH1 IH2]]; simpl.
  - split; [intros x [] | lia].
  - destruct (key_eq_dec k key); simpl.
    + split; [apply incl_refl | lia].
    + split; [|lia]. intros x [<-|Hx]; [now left | right; now apply IH1].
Qed.

Lemma set_child_keeps key (v : float) s :
  keys (set_child key v s) = keys s /\ length (set_child key v s) = length s.
Proof.
  induction s as [|[k x] s [IH1 IH2]]; simpl; [now split|].
  destruct (key_eq_dec k key); simpl; [now split|].
  unfold keys in *. rewrite IH1, IH2. now split.
Qed.

Lemma keeps_apply f (e : event float) s :
  keeps e ->
  incl (keys s) (keys (apply_family f e s))
  /\ length s <= length (apply_family f e s).
Proof.
  destruct e as [url|ip|g|g key|g key v|g v|secs]; simpl; intros H;
    try contradiction; try (split; [apply incl_refl | lia]).
  - destruct (family_eq_dec f g); [apply add_child_grows|].
    split; [apply incl_refl | lia].
  - destruct (family_eq_dec f g); [|split; [apply incl_refl | lia]].
    destruct (set_child_keeps key v s) as [-> ->].
    split; [apply incl_refl | lia].
Qed.

Lemma keeps_run f t s :
  Forall keeps t ->
  incl (keys s) (keys (run_family f t s))
  /\ length s <= length (run_family f t s).
Proof.
  intros H. revert s. induction H as [|e t He _ IH]; intros s; simpl.
  - split; [apply incl_refl | lia].
  - destruct (keeps_apply f e s He) as [I1 L1].
    destruct (IH (apply_family f e s)) as [I2 L2].
    split; [exact (incl_tran I1 I2) | lia].
Qed.

Lemma fills_keeps (e : event float) : fills e -> keeps e.
Proof. destruct e; simpl; auto. Qed.

Lemma add_child_values key s :
  (forall k v, In (k, v) s -> v = one \/ v = float_of_int 0) ->
  forall k v, In (k, v) (add_child key s) -> v = one \/ v = float_of_int 0.
Proof.
  induction s as [|[k0 v0] s IH]; intros H k v; simpl.
  - intros [[= _ <-]|[]]. now right.
  - destruct (key_eq_dec k0 key); [apply H|].
    intros [E|Hin]; [apply (H k v); now left|].
    apply (IH (fun k v Hs => H k v (or_intror Hs)) k v Hin).
Qed.

Lemma set_child_values key s :
  (forall k v, In (k, v) s -> v = one \/ v = float_of_int 0) ->
  forall k v, In (k, v) (set_child key one s) -> v = one \/ v = float_of_int 0.
Proof.
  induction s as [|[k0 v0] s IH]; intros H k v; simpl; [intros []|].
  destruct (key_eq_dec k0 key).
  - intros [[= _ <-]|Hin]; [now left | apply (H k v); now right].
  - intros [E|Hin]; [apply (H k v); now left|].
    apply (IH (fun k v Hs => H k v (or_intror Hs)) k v Hin).
Qed.

Lemma fills_apply f (e : event float) s :
  fills e ->
  (forall k v, In (k, v) s -> v = one \/ v = float_of_int 0) ->
  forall k v, In (k, v) (apply_family f e s) -> v = one \/ v = float_of_int 0.
Proof.
  destruct e as [url|ip|g|g key|g key x|g x|secs]; simpl; intros He H;
    try contradiction; try exact H.
  - destruct (family_eq_dec f g); [now apply add_child_values | exact H].
  - destruct (family_eq_dec f g); [subst x; now apply set_child_values | exact H].
Qed.

Lemma fills_run f t s :
  Forall fills t ->
  (forall k v, In (k, v) s -> v = one \/ v = float_of_int 0) ->
  forall k v, In (k, v) (run_family f t s) -> v = one \/ v = float_of_int 0.
Proof.
  intros H. revert s. induction H as [|e t He _ IH]; intros s Hs; simpl;
    [exact Hs|].
  apply IH. now apply fills_apply.
Qed.

(** A trace that requests, clears [f] and then only creates children and
    sets them to 1 is an open refresh of [f]. *)
Lemma clear_then_fill_open f (url : string) (body : list (event float)) r :
  Forall fills body ->
  open_refresh f (Get url :: Clear f :: body) r.
Proof.
  intros Hb. unfold open_refresh, seen_during.
  set (cleared := apply_event (Clear f) r).
  assert (Hc : get_family f cleared = []) by (now destruct f).
  change (observable (Get url :: Clear f :: body) r)
    with (r :: r :: observable body cleared).
  change (replay (Get url :: Clear f :: body) r) with (replay body cleared).
  split.
  - simpl. right. right. rewrite <- Hc. apply in_map.
    destruct body; simpl; now left.
  - intros s. simpl. intros [<-|[<-|H]]; [now left | now left | right].
    apply in_map_iff in H as (seen & <- & H).
    destruct (observable_prefix _ _ _ H) as (t1 & t2 & -> & ->).
    apply Forall_app in Hb as [H1 H2].
    rewrite replay_app, !get_family_replay, Hc.
    destruct (keeps_run f t2 (run_family f t1 [])
                (Forall_impl _ fills_keeps H2)) as [I L].
    split; [exact I|]. split; [exact L|].
    apply (fills_run f t1 [] H1). intros k v [].
Qed.

Lemma stream_entry_fills (v : pyval float) : Forall fills (fst (stream_entry v)).
Proof.
  destruct v as [|b|n|x|text|l|items]; try solve [simpl; constructor].
  rewrite stream_entry_run. unfold stream_events. apply Forall_app. split.
  - apply Forall_forall. intros e He.
    now rewrite (geo_events_inert _ _ He).
  - repeat constructor.
Qed.

Lemma recording_entry_fills (name : string) (v : pyval float) :
  Forall fills (fst (recording_entry name v)).
Proof.
  destruct v as [|b|n|x|text|l|items]; try solve [simpl; constructor].
  change (fst (recording_entry name (PyStr text)))
    with (recording_events (name, text)).
  unfold recording_events. repeat constructor.
Qed.

Lemma client_entry_fills (v : pyval float) : Forall fills (fst (client_entry v)).
Proof.
  destruct v as [|b|n|x|text|l|items]; try solve [simpl; constructor].
  rewrite client_entry_run. unfold client_events, fst. repeat constructor.
Qed.

Lemma inert_fills (e : event float) : inert e -> fills e.
Proof. destruct e; simpl; tauto. Qed.

Lemma fetch_dvr_shape (code : Z) (d : list (string * pyval float)) :
  exists body,
    fst (fetch_dvr self (Response code (Some (PyDict d))))
    = Get (channels_api self ++ "/dvr") :: Clear Streams :: body
    /\ Forall fills body.
Proof.
  unfold fetch_dvr, requests_get, json. simpl.
  set (rest := bind (dict_items _) _).
  exists (fst rest). split; [now destruct rest|].
  subst rest. apply bind_all; [|intros items; apply bind_all].
  - destruct (match lookup "activity" d with Some v => v | None => PyDict [] end);
      simpl; constructor.
  - apply for_each_all. intros item. apply stream_entry_fills.
  - intros _. eapply Forall_impl; [apply inert_fills | apply publish_guide_inert].
Qed.

Lemma fetch_recordings_shape (code : Z) (v : pyval float) :
  exists body,
    fst (fetch_recordings self (Response code (Some v)))
    = Get (channels_api self ++ "/dvr/programs") :: Clear Recordings :: body
    /\ Forall fills body.
Proof.
  unfold fetch_recordings, requests_get, json. simpl.
  set (rest := bind (dict_items _) _).
  exists (fst rest). split; [now destruct rest|].
  subst rest. apply bind_all; [destruct v; simpl; constructor|].
  intros items. apply for_each_all. intros item. apply recording_entry_fills.
Qed.

Lemma fetch_clients_shape (code : Z) (v : pyval float) :
  exists body,
    fst (fetch_clients self (Response code (Some v)))
    = Get (channels_api self ++ "/dvr/clients/info") :: Clear Clients :: body
    /\ Forall fills body.
Proof.
  unfold fetch_clients, requests_get, json. simpl.
  set (rest := bind (iterate _) _).
  exists (fst rest). split; [now destruct rest|].
  subst rest. apply bind_all; [destruct v; simpl; constructor|].
  intros entries. apply for_each_all. apply client_entry_fills.
Qed.

(** C2, as the code has it.  Nothing makes [clear()] and the repopulation one
    step for a reader: whenever a sub-step gets as far as its [clear()] (the
    reply decodes; for the dvr sub-step, to an object), a scrape that falls
    between two operations of the sub-step can see its family empty; what it
    sees is the family as it was before the sub-step, or children whose
    label tuples are among those the family has after it, no more of them
    than after it, each at value 1 or, between its [labels()] and its
    [set(1)], still at 0. *)
Theorem refresh_is_open_to_readers (code : Z)
    (d : list (string * pyval float)) (programs clients : pyval float) r :
  open_refresh Streams
    (fst (fetch_dvr self (Response code (Some (PyDict d))))) r
  /\ open_refresh Recordings
       (fst (fetch_recordings self (Response code (Some programs)))) r
  /\ open_refresh Clients
       (fst (fetch_clients self (Response code (Some clients)))) r.
Proof.
  destruct (fetch_dvr_shape code d) as (b1 & -> & H1).
  destruct (fetch_recordings_shape code programs) as (b2 & -> & H2).
  destruct (fetch_clients_shape code clients) as (b3 & -> & H3).
  repeat split; now apply clear_then_fill_open.
Qed.

End ExporterFacts.

(* ------------------------------------------------------------------ *)
(** ** The claims at the concrete world *)

Module Checks.
Import Demo.
Local Open Scope string_scope.
Local Open Scope list_scope.



(** One stream before the cycle, the same stream after it, and none in
    between: the scrape that comes right after [clear()] sees fewer entries
    than both. *)
Lemma scrape_sees_no_stream :
  let t := fst (fetch_dvr self (dvr_reply healthy)) in
  exists seen,
    In seen (observable t warm)
    /\ length (streams seen) < length (streams warm)
    /\ length (streams seen) < length (streams (replay t warm)).
Proof.
  cbv zeta. exists (apply_event (Clear Streams) warm).
  split; [right; right; left; reflexivity|].
  split; vm_compute; lia.
Qed.

Lemma failed_fetch_keeps_registry_witness :
  fetch_fails (clients_reply clients_garbled)
  /\ fst (fetch_clients self (clients_reply clients_garbled))
     = [Get "http://localhost:8089/dvr/clients/info"]
  /\ replay (fst (fetch_clients self (clients_reply clients_garbled))) warm
     = warm.
Proof.
  assert (H : fetch_fails (clients_reply clients_garbled))
    by (right; now exists 200%Z).
  split; [exact H|].
  exact (proj1 (proj2 (proj2 (failed_fetch_keeps_registry self _ warm H)))).
Defined.

(** A reply with status 500 whose body decodes: the one stream published
    before is gone after the sub-step. *)
Lemma error_status_blanks_streams :
  let reply := Response 500 (Some (PyDict [("error", PyStr "internal")])) in
  streams warm <> []
  /\ streams (replay (fst (fetch_dvr self reply)) warm) = [].
Proof. cbv zeta. split; [discriminate | reflexivity]. Qed.



Lemma families_replaced_each_cycle_witness :
  activity_entries dvr_fields activity
  /\ (forall k, In k (keys (streams
                  (replay (fst (fetch_dvr self (dvr_reply healthy))) warm)))
                <-> In k (map (fun e => stream_key (snd e)) activity)).
Proof.
  assert (Ha : activity_entries dvr_fields activity) by (right; reflexivity).
  split; [exact Ha|].
  exact (proj1 (proj1 (families_replaced_each_cycle self 200 dvr_fields
                         activity programs [client] warm Ha))).
Defined.

Lemma every_activity_entry_published_witness :
  activity_entries dvr_fields activity
  /\ published Streams (fst (fetch_dvr self (dvr_reply healthy)))
     = map (fun e => stream_key (snd e)) activity.
Proof.
  assert (Ha : activity_entries dvr_fields activity) by (right; reflexivity).
  split; [exact Ha|].
  exact (proj1 (proj2 (every_activity_entry_published self 200 dvr_fields
                         activity fresh Ha))).
Defined.

End Checks.

(* ------------------------------------------------------------------ *)
(** ** More on the extractions *)

Module ExtractMore.
Import Re Extract.
Local Open Scope string_scope.

Lemma append_empty (a : string) : a ++ EmptyString = a.
Proof. induction a as [|x a IH]; simpl; [reflexivity | now rewrite IH]. Qed.

Lemma no_length_empty (a : string) : String.length a <= 0 -> a = EmptyString.
Proof. destruct a; simpl; [reflexivity | lia]. Qed.

Section Whole.
Variable r : regex.
Variable P : string -> Prop.
Hypothesis bt_complete : forall m post,
  P m ->
  exists rest, bt r (m ++ post) (fun rest => Some rest) = Some rest /\
               String.length rest <= String.length post.

(** A text of the shape of the pattern is matched whole at its start. *)
Lemma match_at_whole (m : string) : P m -> match_at r m = Some m.
Proof.
  intros H. destruct (bt_complete m EmptyString H) as (rest & E & L).
  apply no_length_empty in L. subst rest. rewrite append_empty in E.
  unfold match_at. rewrite E.
  pose proof (ReFacts.slice_of_split m EmptyString) as S.
  rewrite append_empty in S. now rewrite S.
Qed.

Lemma search_whole (m : string) : P m -> search r m = Some m.
Proof.
  intros H. destruct m as [|c m].
  - change (search r EmptyString)
      with (match match_at r EmptyString with
            | Some m => Some m
            | None => None
            end).
    now rewrite (match_at_whole _ H).
  - now rewrite ReFacts.search_step, (match_at_whole _ H).
Qed.

End Whole.

Lemma default_ip_is_quad : dotted_quad "127.0.0.1".
Proof.
  exists "127", "0", "0", "1".
  repeat split; try discriminate; reflexivity.
Qed.

Lemma default_channel_has_shape : channel_shape "ch0".
Proof. exists "0". repeat split; try discriminate; reflexivity. Qed.

Lemma extract_ip_quad (text : string) : dotted_quad (extract_ip text).
Proof.
  destruct (ExtractFacts.extract_ip_cases text) as [(_ & _ & _ & H & _)|[_ ->]];
    [exact H | exact default_ip_is_quad].
Qed.

Lemma extract_channel_shape (text : string) :
  channel_shape (extract_channel text).
Proof.
  destruct (ExtractFacts.extract_channel_cases text)
    as [(_ & _ & _ & H & _)|[_ ->]];
    [exact H | exact default_channel_has_shape].
Qed.

Lemma extract_ip_of_quad (m : string) : dotted_quad m -> extract_ip m = m.
Proof.
  intros H. unfold extract_ip.
  rewrite (search_whole ip_re dotted_quad); [reflexivity | | exact H].
  intros m' post. rewrite ReFacts.bt_ip_re. apply ReFacts.ip_rest_complete.
Qed.

Lemma extract_channel_of_shape (m : string) :
  channel_shape m -> extract_channel m = m.
Proof.
  intros H. unfold extract_channel.
  rewrite (search_whole ch_re channel_shape); [reflexivity | | exact H].
  intros m' post. rewrite ReFacts.bt_ch_re. apply ReFacts.ch_rest_complete.
Qed.

(** X1. Whatever the text, the ip extracted has the dotted-quad shape (the
    default included), and extracting again from the result changes
    nothing. *)
Theorem extract_ip_quad_and_stable (text : string) :
  dotted_quad (extract_ip text)
  /\ extract_ip (extract_ip text) = extract_ip text.
Proof.
  split; [apply extract_ip_quad|].
  apply extract_ip_of_quad, extract_ip_quad.
Qed.

(** X2. Whatever the text, the channel extracted is [ch] followed by digits
    (the default included), and extracting again from the result changes
    nothing. *)
Theorem extract_channel_shape_and_stable (text : string) :
  channel_shape (extract_channel text)
  /\ extract_channel (extract_channel text) = extract_channel text.
Proof.
  split; [apply extract_channel_shape|].
  apply extract_channel_of_shape, extract_channel_shape.
Qed.

Lemma extract_status_no_dash (text : string) :
  contains "-" (extract_status text) = false.
Proof.
  unfold extract_status. destruct (contains "-" text) eqn:E; [|reflexivity].
  now destruct (ReFacts.split_first _ _ E) as (piece & pieces & post & -> & _ & H).
Qed.

(** X3. The status extracted never holds a ['-'], so extracting a status
    from a status gives ["unknown"]: unlike the other two extractions, this
    one is not stable. *)
Theorem extract_status_has_no_dash (text : string) :
  contains "-" (extract_status text) = false
  /\ extract_status (extract_status text) = "unknown".
Proof.
  split; [apply extract_status_no_dash|].
  unfold extract_status at 1. now rewrite extract_status_no_dash.
Qed.

(** X4. The status is the empty string exactly when the text starts with
    ['-']; any other text gives a status of at least one character. *)
Theorem extract_status_empty_iff (text : string) :
  extract_status text = EmptyString <-> exists rest, text = String "-" rest.
Proof.
  split.
  - unfold extract_status. destruct (contains "-" text) eqn:E; [|discriminate].
    destruct (ReFacts.split_first _ _ E) as (piece & pieces & post & -> & Et & _).
    intros ->. now exists post.
  - intros [rest ->]. reflexivity.
Qed.

End ExtractMore.

(* ------------------------------------------------------------------ *)
(** ** More on the methods *)

Section ExporterMore.
Context {float : Type} `{RT : Runtime float}.
Variable self : AppMetrics.

Implicit Types (t : list (event float)) (r : Registry float)
  (s : samples float) (f g : family) (key : list string).

(** *** What a sub-step can do, whatever the reply *)

Lemma geo_refreshes (ip : string) :
  Forall (refreshes Streams) (fst (geo_coordinates ip)).
Proof.
  apply Forall_forall. intros e He.
  now rewrite (geo_events_inert _ _ He).
Qed.

Lemma stream_entry_refreshes (v : pyval float) :
  Forall (refreshes Streams) (fst (stream_entry v)).
Proof.
  destruct v as [|b|n|x|text|l|items]; try solve [simpl; constructor].
  rewrite stream_entry_run. unfold stream_events. apply Forall_app. split.
  - apply geo_refreshes.
  - repeat constructor.
Qed.

Lemma recording_entry_refreshes (name : string) (v : pyval float) :
  Forall (refreshes Recordings) (fst (recording_entry name v)).
Proof.
  destruct v as [|b|n|x|text|l|items]; try solve [simpl; constructor].
  change (fst (recording_entry name (PyStr text)))
    with (recording_events (name, text)).
  unfold recording_events. repeat constructor.
Qed.

Lemma client_entry_refreshes (v : pyval float) :
  Forall (refreshes Clients) (fst (client_entry v)).
Proof.
  destruct v as [|b|n|x|text|l|items]; try solve [simpl; constructor].
  rewrite client_entry_run. unfold client_events, fst. repeat constructor.
Qed.

Lemma gauge_set_refreshes (sc : scalar) (v : pyval float) :
  Forall (refreshes Streams) (fst (gauge_set sc v)).
Proof.
  unfold gauge_set, py_float.
  destruct v as [|b|n|x|str|l|items]; simpl;
    try destruct (representable n); try destruct (float_of_str str);
    simpl; repeat constructor.
Qed.

Lemma publish_guide_refreshes (v : pyval float) :
  Forall (refreshes Streams) (fst (publish_guide v)).
Proof.
  unfold publish_guide.
  apply bind_all; [rewrite dict_get_silent; constructor | intros guide].
  apply bind_all; [rewrite dict_get_silent; constructor | intros num_shows].
  apply bind_all; [apply gauge_set_refreshes | intros _].
  apply bind_all; [rewrite dict_get_silent; constructor | intros num_airings].
  apply gauge_set_refreshes.
Qed.

Lemma fetch_dvr_trace (reply : http_outcome float) :
  exists rest,
    fst (fetch_dvr self reply) = Get (channels_api self ++ "/dvr") :: rest
    /\ Forall (refreshes Streams) rest.
Proof.
  destruct reply as [|code [v|]];
    try solve [exists []; split; [reflexivity | constructor]].
  destruct v as [|b|n|x|text|l|d];
    try solve [exists []; split; [reflexivity | constructor]].
  unfold fetch_dvr, requests_get, json. simpl.
  set (rest := bind (dict_items _) _).
  exists (Clear Streams :: fst rest). split; [now destruct rest|].
  constructor; [reflexivity|].
  subst rest. apply bind_all; [|intros items; apply bind_all].
  - destruct (match lookup "activity" d with Some v => v | None => PyDict [] end);
      simpl; constructor.
  - apply for_each_all. intros item. apply stream_entry_refreshes.
  - intros _. apply publish_guide_refreshes.
Qed.

Lemma fetch_recordings_trace (reply : http_outcome float) :
  exists rest,
    fst (fetch_recordings self reply)
    = Get (channels_api self ++ "/dvr/programs") :: rest
    /\ Forall (refreshes Recordings) rest.
Proof.
  destruct reply as [|code [v|]];
    try solve [exists []; split; [reflexivity | constructor]].
  unfold fetch_recordings, requests_get, json. simpl.
  set (rest := bind (dict_items _) _).
  exists (Clear Recordings :: fst rest). split; [now destruct rest|].
  constructor; [reflexivity|].
  subst rest. apply bind_all; [destruct v; simpl; constructor|].
  intros items. apply for_each_all. intros item.
  apply recording_entry_refreshes.
Qed.

Lemma fetch_clients_trace (reply : http_outcome float) :
  exists rest,
    fst (fetch_clients self reply)
    = Get (channels_api self ++ "/dvr/clients/info") :: rest
    /\ Forall (refreshes Clients) rest.
Proof.
  destruct reply as [|code [v|]];
    try solve [exists []; split; [reflexivity | constructor]].
  unfold fetch_clients, requests_get, json. simpl.
  set (rest := bind (iterate _) _).
  exists (Clear Clients :: fst rest). split; [now destruct rest|].
  constructor; [reflexivity|].
  subst rest. apply bind_all; [destruct v; simpl; constructor|].
  intros entries. apply for_each_all. apply client_entry_refreshes.
Qed.

Lemma refreshes_requests f t : Forall (refreshes f) t -> requests t = [].
Proof.
  induction 1 as [|e t He _ IH]; simpl; [reflexivity|].
  rewrite IH. destruct e; simpl in *; try reflexivity; contradiction.
Qed.

Lemma refreshes_sleeps f t : Forall (refreshes f) t -> sleeps t = [].
Proof.
  induction 1 as [|e t He _ IH]; simpl; [reflexivity|].
  rewrite IH. destruct e; simpl in *; try reflexivity; contradiction.
Qed.

Lemma refreshes_other f g t s :
  g <> f -> Forall (refreshes f) t -> run_family g t s = s.
Proof.
  intros Hg H. revert s. induction H as [|e t He _ IH]; intros s; simpl;
    [reflexivity|].
  rewrite <- (IH s) at 2. f_equal.
  destruct e as [url|ip|h|h key|h key v|sc v|secs]; simpl in *;
    try reflexivity; subst h;
    destruct (family_eq_dec g f); congruence.
Qed.

Lemma refreshes_scalars f t r :
  f <> Streams -> Forall (refreshes f) t ->
  shows (replay t r) = shows r /\ airings (replay t r) = airings r.
Proof.
  intros Hf H. revert r. induction H as [|e t He _ IH]; intros r; simpl;
    [now split|].
  destruct (IH (apply_event e r)) as [-> ->].
  destruct e as [url|ip|h|h key|h key v|sc v|secs]; simpl in *;
    try contradiction; try (now split); destruct h; now split.
Qed.

Lemma get_family_request f (url : string) t r :
  get_family f (replay (Get url :: t) r) = run_family f t (get_family f r).
Proof. change (replay (Get url :: t) r) with (replay t r). apply get_family_replay. Qed.

(** What each sub-step leaves alone, whatever the reply. *)
Lemma fetch_dvr_foreign (reply : http_outcome float) r :
  recordings (replay (fst (fetch_dvr self reply)) r) = recordings r
  /\ clients (replay (fst (fetch_dvr self reply)) r) = clients r.
Proof.
  destruct (fetch_dvr_trace reply) as (rest & -> & H).
  change (recordings ?x) with (get_family Recordings x).
  change (clients ?x) with (get_family Clients x).
  rewrite !get_family_request.
  split; apply (refreshes_other Streams); (discriminate || assumption).
Qed.

Lemma fetch_recordings_foreign (reply : http_outcome float) r :
  let r' := replay (fst (fetch_recordings self reply)) r in
  streams r' = streams r /\ clients r' = clients r
  /\ shows r' = shows r /\ airings r' = airings r.
Proof.
  cbv zeta. destruct (fetch_recordings_trace reply) as (rest & -> & H).
  change (streams ?x) with (get_family Streams x).
  change (clients ?x) with (get_family Clients x).
  rewrite !get_family_request.
  change (replay (Get ?u :: rest) r) with (replay rest r).
  repeat split;
    try (apply (refreshes_other Recordings); (discriminate || assumption));
    apply (refreshes_scalars Recordings); (discriminate || assumption).
Qed.

Lemma fetch_clients_foreign (reply : http_outcome float) r :
  let r' := replay (fst (fetch_clients self reply)) r in
  streams r' = streams r /\ recordings r' = recordings r
  /\ shows r' = shows r /\ airings r' = airings r.
Proof.
  cbv zeta. destruct (fetch_clients_trace reply) as (rest & -> & H).
  change (streams ?x) with (get_family Streams x).
  change (recordings ?x) with (get_family Recordings x).
  rewrite !get_family_request.
  change (replay (Get ?u :: rest) r) with (replay rest r).
  repeat split;
    try (apply (refreshes_other Clients); (discriminate || assumption));
    apply (refreshes_scalars Clients); (discriminate || assumption).
Qed.

(** X5. Whatever the reply (a failure, a body of any shape), a sub-step only
    touches its own gauges: [fetch_dvr] leaves the recordings and the clients
    as they are, [fetch_recordings] and [fetch_clients] leave every other
    family and the two plain gauges as they are. *)
Theorem sub_steps_keep_to_their_gauges (reply : http_outcome float) r :
  let after_dvr := replay (fst (fetch_dvr self reply)) r in
  let after_programs := replay (fst (fetch_recordings self reply)) r in
  let after_clients := replay (fst (fetch_clients self reply)) r in
  (recordings after_dvr = recordings r /\ clients after_dvr = clients r)
  /\ (streams after_programs = streams r /\ clients after_programs = clients r
      /\ shows after_programs = shows r /\ airings after_programs = airings r)
  /\ (streams after_clients = streams r
      /\ recordings after_clients = recordings r
      /\ shows after_clients = shows r /\ airings after_clients = airings r).
Proof.
  cbv zeta. split; [apply fetch_dvr_foreign|].
  split; [apply fetch_recordings_foreign | apply fetch_clients_foreign].
Qed.

Lemma requests_app t1 t2 : requests (t1 ++ t2) = requests t1 ++ requests t2.
Proof. apply flat_map_app. Qed.

Lemma sleeps_app t1 t2 : sleeps (t1 ++ t2) = sleeps t1 ++ sleeps t2.
Proof. apply flat_map_app. Qed.

Lemma fetch_dvr_requests (reply : http_outcome float) :
  requests (fst (fetch_dvr self reply)) = [channels_api self ++ "/dvr"]%string
  /\ sleeps (fst (fetch_dvr self reply)) = [].
Proof.
  destruct (fetch_dvr_trace reply) as (rest & -> & H). simpl.
  now rewrite (refreshes_requests _ _ H), (refreshes_sleeps _ _ H).
Qed.

Lemma fetch_recordings_requests (reply : http_outcome float) :
  requests (fst (fetch_recordings self reply))
  = [channels_api self ++ "/dvr/programs"]%string
  /\ sleeps (fst (fetch_recordings self reply)) = [].
Proof.
  destruct (fetch_recordings_trace reply) as (rest & -> & H). simpl.
  now rewrite (refreshes_requests _ _ H), (refreshes_sleeps _ _ H).
Qed.

Lemma fetch_clients_requests (reply : http_outcome float) :
  requests (fst (fetch_clients self reply))
  = [channels_api self ++ "/dvr/clients/info"]%string
  /\ sleeps (fst (fetch_clients self reply)) = [].
Proof.
  destruct (fetch_clients_trace reply) as (rest & -> & H). simpl.
  now rewrite (refreshes_requests _ _ H), (refreshes_sleeps _ _ H).
Qed.

(** X6. Whatever the reply, a sub-step sends exactly one request, to its own
    endpoint under [channels_api]: there is no retry and no second call. *)
Theorem one_request_per_sub_step (reply : http_outcome float) :
  requests (fst (fetch_dvr self reply)) = [channels_api self ++ "/dvr"]%string
  /\ requests (fst (fetch_recordings self reply))
     = [channels_api self ++ "/dvr/programs"]%string
  /\ requests (fst (fetch_clients self reply))
     = [channels_api self ++ "/dvr/clients/info"]%string.
Proof.
  split; [apply fetch_dvr_requests|].
  split; [apply fetch_recordings_requests | apply fetch_clients_requests].
Qed.

(** *** One cycle *)

Lemma cycle_run (c : cycle_replies float) t1 t2 t3 :
  fetch_dvr self (dvr_reply c) = (t1, Ok tt) ->
  fetch_recordings self (programs_reply c) = (t2, Ok tt) ->
  fetch_clients self (clients_reply c) = (t3, Ok tt) ->
  cycle self c
  = (t1 ++ t2 ++ t3 ++ fst (@sleep float (polling_interval_seconds self)),
     snd (@sleep float (polling_interval_seconds self))).
Proof.
  intros H1 H2 H3. unfold cycle. rewrite H1, H2, H3. simpl.
  now destruct (sleep (polling_interval_seconds self)).
Qed.

Lemma cycle_ok (c : cycle_replies float) :
  snd (cycle self c) = Ok tt ->
  exists t1 t2 t3,
    fetch_dvr self (dvr_reply c) = (t1, Ok tt)
    /\ fetch_recordings self (programs_reply c) = (t2, Ok tt)
    /\ fetch_clients self (clients_reply c) = (t3, Ok tt)
    /\ (polling_interval_seconds self <? 0)%Z = false.
Proof.
  unfold cycle, sleep.
  destruct (fetch_dvr self (dvr_reply c)) as [t1 [[]|e1]];
    [|discriminate].
  destruct (fetch_recordings self (programs_reply c)) as [t2 [[]|e2]];
    [|discriminate].
  destruct (fetch_clients self (clients_reply c)) as [t3 [[]|e3]];
    [|discriminate].
  destruct (polling_interval_seconds self <? 0)%Z; [discriminate|].
  intros _. now exists t1, t2, t3.
Qed.

(** X7. A cycle that completes has sent three requests, to [/dvr],
    [/dvr/programs] and [/dvr/clients/info] in this order, and has slept
    once, for [polling_interval_seconds], as its last step. *)
Theorem completed_cycle_requests_and_sleep (c : cycle_replies float) :
  snd (cycle self c) = Ok tt ->
  requests (fst (cycle self c)) = endpoints (channels_api self)
  /\ sleeps (fst (cycle self c)) = [polling_interval_seconds self]
  /\ exists t, fst (cycle self c) = t ++ [Sleep (polling_interval_seconds self)].
Proof.
  intros H. destruct (cycle_ok _ H) as (t1 & t2 & t3 & H1 & H2 & H3 & Hn).
  rewrite (cycle_run _ _ _ _ H1 H2 H3). unfold sleep. rewrite Hn. simpl fst.
  pose proof (fetch_dvr_requests (dvr_reply c)) as [R1 S1].
  pose proof (fetch_recordings_requests (programs_reply c)) as [R2 S2].
  pose proof (fetch_clients_requests (clients_reply c)) as [R3 S3].
  rewrite H1 in R1, S1. rewrite H2 in R2, S2. rewrite H3 in R3, S3.
  simpl in R1, R2, R3, S1, S2, S3.
  rewrite !requests_app, !sleeps_app, R1, R2, R3, S1, S2, S3.
  split; [reflexivity|]. split; [reflexivity|].
  exists (t1 ++ t2 ++ t3). now rewrite <- !app_assoc.
Qed.


(** *** Bodies of the wrong shape *)

Lemma bind_assoc {A B C : Type} (m : @M float A) (k1 : A -> @M float B)
    (k2 : B -> @M float C) :
  bind (bind m k1) k2 = bind m (fun a => bind (k1 a) k2).
Proof.
  destruct m as [t [a|e]]; simpl; [|reflexivity].
  destruct (k1 a) as [t1 [b|e]]; simpl; [|reflexivity].
  destruct (k2 b) as [t2 res]. now rewrite app_assoc.
Qed.

Lemma for_each_app {A : Type} (l1 l2 : list A) (body : A -> @M float unit) :
  for_each (l1 ++ l2) body
  = bind (for_each l1 body) (fun _ => for_each l2 body).
Proof.
  induction l1 as [|x l1 IH]; simpl.
  - now destruct (for_each l2 body).
  - now rewrite IH, bind_assoc.
Qed.

Lemma stream_entry_not_str (v : pyval float) :
  is_str v = false -> stream_entry v = ([], Raise TypeError).
Proof. destruct v; (discriminate || reflexivity). Qed.

Lemma recording_entry_not_str (name : string) (v : pyval float) :
  is_str v = false -> recording_entry name v = ([], Raise TypeError).
Proof. destruct v; (discriminate || reflexivity). Qed.

Lemma client_entry_not_dict (v : pyval float) :
  is_dict v = false -> client_entry v = ([], Raise AttributeError).
Proof. destruct v; (discriminate || reflexivity). Qed.

Lemma scalars_after_request_and_fill (url : string) t r :
  Forall (fun e => match e with SetGauge _ _ => False | _ => True end) t ->
  shows (replay (Get url :: t) r) = shows r
  /\ airings (replay (Get url :: t) r) = airings r.
Proof.
  change (replay (Get url :: t) r) with (replay t r).
  intros H. revert r. induction H as [|e t He _ IH]; intros r; simpl;
    [now split|].
  destruct (IH (apply_event e r)) as [-> ->].
  destruct e as [u|ip|h|h key|h key v|sc v|secs]; simpl in *;
    try contradiction; try (now split); destruct h; now split.
Qed.

Lemma stream_events_no_scalar (entries : list (string * string)) :
  Forall (fun e : event float =>
            match e with SetGauge _ _ => False | _ => True end)
    (Clear Streams :: flat_map (fun e => stream_events (snd e)) entries).
Proof.
  constructor; [exact I|]. induction entries as [|e entries IH]; simpl;
    [constructor|].
  apply Forall_app. split; [|exact IH]. unfold stream_events.
  apply Forall_app. split; [|repeat constructor].
  apply Forall_forall. intros x Hx.
  now rewrite (geo_events_inert _ _ Hx).
Qed.

(** X9. When the dvr body decodes to something that is not an object (a
    list, a string, a number, null), [fetch_dvr] raises [AttributeError] on
    its first [get], before [clear()]: the registry stays as it was. *)
Theorem dvr_body_not_object (code : Z) (v : pyval float) r :
  is_dict v = false ->
  fetch_dvr self (Response code (Some v))
  = ([Get (channels_api self ++ "/dvr")], Raise AttributeError)
  /\ replay (fst (fetch_dvr self (Response code (Some v)))) r = r.
Proof. destruct v; intros H; try discriminate H; now split. Qed.

(** X10. When the dvr body is an object whose [activity] is not an object,
    the streams are cleared first and then [items()] raises
    [AttributeError]: the family is left empty, and the two plain gauges are
    not updated. *)
Theorem dvr_activity_not_object (code : Z) (d : list (string * pyval float))
    (a : pyval float) r :
  lookup "activity" d = Some a -> is_dict a = false ->
  let out := fetch_dvr self (Response code (Some (PyDict d))) in
  out = ([Get (channels_api self ++ "/dvr"); Clear Streams],
         Raise AttributeError)
  /\ streams (replay (fst out) r) = []
  /\ shows (replay (fst out) r) = shows r
  /\ airings (replay (fst out) r) = airings r.
Proof.
  intros H Ha. cbv zeta.
  assert (E : fetch_dvr self (Response code (Some (PyDict d)))
              = ([Get (channels_api self ++ "/dvr"); Clear Streams],
                 Raise AttributeError)).
  { unfold fetch_dvr, requests_get, json, dict_get, dict_items. simpl.
    rewrite H. destruct a; try discriminate Ha; reflexivity. }
  rewrite E. repeat split.
Qed.

(** X11. When a value of the activity mapping is not a string, [re.search]
    raises [TypeError] at that entry: the entries before it are published,
    that entry and the ones after it are not, and the two plain gauges are
    not updated. *)
Theorem dvr_activity_value_not_string (code : Z)
    (d : list (string * pyval float)) (before : list (string * string))
    (name : string) (v : pyval float)
    (after : list (string * pyval float)) r :
  lookup "activity" d = Some (PyDict (str_items before ++ (name, v) :: after)) ->
  is_str v = false ->
  let out := fetch_dvr self (Response code (Some (PyDict d))) in
  out = (Get (channels_api self ++ "/dvr") :: Clear Streams
           :: flat_map (fun e => stream_events (snd e)) before,
         Raise TypeError)
  /\ streams (replay (fst out) r)
     = populate (map (fun e => stream_key (snd e)) before) []
  /\ shows (replay (fst out) r) = shows r
  /\ airings (replay (fst out) r) = airings r.
Proof.
  intros H Hv. cbv zeta.
  assert (E : fetch_dvr self (Response code (Some (PyDict d)))
              = (Get (channels_api self ++ "/dvr") :: Clear Streams
                   :: flat_map (fun e => stream_events (snd e)) before,
                 Raise TypeError)).
  { unfold fetch_dvr, requests_get, json, dict_get, dict_items. simpl.
    rewrite H. simpl. rewrite for_each_app, for_each_streams. simpl.
    rewrite (stream_entry_not_str _ Hv). simpl. now rewrite app_nil_r. }
  rewrite E. simpl fst. split; [reflexivity|]. split.
  - change (streams ?x) with (get_family Streams x).
    rewrite get_family_request.
    change (run_family Streams (Clear Streams :: ?t) ?s)
      with (run_family Streams t []).
    apply run_entries. intros x s'. apply run_stream_events.
  - apply scalars_after_request_and_fill, stream_events_no_scalar.
Qed.

(** X12. When the programs body decodes to something that is not an object,
    the recordings are cleared first and then [items()] raises
    [AttributeError]: unlike a failed fetch, this leaves the family empty. *)
Theorem programs_body_not_object (code : Z) (v : pyval float) r :
  is_dict v = false ->
  let out := fetch_recordings self (Response code (Some v)) in
  out = ([Get (channels_api self ++ "/dvr/programs"); Clear Recordings],
         Raise AttributeError)
  /\ recordings (replay (fst out) r) = [].
Proof. destruct v; intros H; try discriminate H; now split. Qed.

(** X13. When the info of a program is not a string, [re.search] raises
    [TypeError] at that program: the programs before it are published, that
    one and the ones after it are not. *)
Theorem programs_info_not_string (code : Z) (before : list (string * string))
    (name : string) (v : pyval float)
    (after : list (string * pyval float)) r :
  is_str v = false ->
  let out :=
    fetch_recordings self
      (Response code (Some (PyDict (str_items before ++ (name, v) :: after)))) in
  out = (Get (channels_api self ++ "/dvr/programs") :: Clear Recordings
           :: flat_map recording_events before,
         Raise TypeError)
  /\ recordings (replay (fst out) r) = populate (map recording_key before) [].
Proof.
  intros Hv. cbv zeta.
  assert (E : fetch_recordings self
                (Response code
                   (Some (PyDict (str_items before ++ (name, v) :: after))))
              = (Get (channels_api self ++ "/dvr/programs") :: Clear Recordings
                   :: flat_map recording_events before,
                 Raise TypeError)).
  { unfold fetch_recordings, requests_get, json, dict_items. simpl.
    rewrite for_each_app, for_each_recordings. simpl.
    rewrite (recording_entry_not_str _ _ Hv). simpl. now rewrite app_nil_r. }
  rewrite E. simpl fst. split; [reflexivity|].
  change (recordings ?x) with (get_family Recordings x).
  rewrite get_family_request.
  change (run_family Recordings (Clear Recordings :: ?t) ?s)
    with (run_family Recordings t []).
  apply run_entries. intros x s'. apply run_recording_events.
Qed.

(** X14. When the clients body is not a list: null, a boolean or a number
    cannot be iterated ([TypeError]); an object or a string is iterated over
    its keys or characters, which have no [get] ([AttributeError]) unless
    there are none.  In every case the clients were cleared first, so the
    family is left empty. *)
Theorem clients_body_not_list (code : Z) (v : pyval float) r :
  is_list v = false ->
  let out := fetch_clients self (Response code (Some v)) in
  let url := (channels_api self ++ "/dvr/clients/info")%string in
  clients (replay (fst out) r) = []
  /\ fst out = [Get url; Clear Clients]
  /\ (is_dict v = false -> is_str v = false -> snd out = Raise TypeError)
  /\ (v = PyDict [] \/ v = PyStr EmptyString -> snd out = Ok tt)
  /\ (forall k x items, v = PyDict ((k, x) :: items) ->
      snd out = Raise AttributeError)
  /\ (forall c text, v = PyStr (String c text) ->
      snd out = Raise AttributeError).
Proof.
  intros Hl. cbv zeta.
  destruct v as [|b|n|x|[|c text]|l|[|[k x] items]]; try discriminate Hl;
    (split; [reflexivity|]); (split; [reflexivity|]);
    (split; [intros H1 H2; try discriminate; reflexivity|]);
    (split; [intros [H|H]; try discriminate; reflexivity|]);
    split; intros; try discriminate; reflexivity.
Qed.

(** X15. When an element of the clients list is not an object, its first
    [get] raises [AttributeError]: the clients before it are published, that
    element and the ones after it are not. *)
Theorem clients_entry_not_object (code : Z)
    (before : list (list (string * pyval float))) (v : pyval float)
    (after : list (pyval float)) r :
  is_dict v = false ->
  let out :=
    fetch_clients self
      (Response code
         (Some (PyList (map (fun c => PyDict c) before ++ v :: after)))) in
  out = (Get (channels_api self ++ "/dvr/clients/info") :: Clear Clients
           :: flat_map client_events before,
         Raise AttributeError)
  /\ clients (replay (fst out) r) = populate (map client_key before) [].
Proof.
  intros Hv. cbv zeta.
  assert (E : fetch_clients self
                (Response code
                   (Some (PyList (map (fun c => PyDict c) before ++ v :: after))))
              = (Get (channels_api self ++ "/dvr/clients/info") :: Clear Clients
                   :: flat_map client_events before,
                 Raise AttributeError)).
  { unfold fetch_clients, requests_get, json, iterate. simpl.
    rewrite for_each_app, for_each_clients.
    change (for_each (v :: after) client_entry)
      with (bind (client_entry v) (fun _ => for_each after client_entry)).
    rewrite (client_entry_not_dict _ Hv). simpl. now rewrite app_nil_r. }
  rewrite E. simpl fst. split; [reflexivity|].
  change (clients ?x) with (get_family Clients x).
  rewrite get_family_request.
  change (run_family Clients (Clear Clients :: ?t) ?s)
    with (run_family Clients t []).
  apply run_entries. intros x s'. apply run_client_events.
Qed.

(** *** The registry after a cycle *)

Lemma registry_eq r1 r2 :
  streams r1 = streams r2 -> recordings r1 = recordings r2 ->
  shows r1 = shows r2 -> airings r1 = airings r2 -> clients r1 = clients r2 ->
  r1 = r2.
Proof. destruct r1, r2; simpl; intros; now subst. Qed.

Lemma ran_ok (m : @M float unit) : snd m = Ok tt -> m = (fst m, Ok tt).
Proof. destruct m as [t res]; simpl; now intros ->. Qed.

Lemma sleep_foreign (n : Z) r : replay (fst (@sleep float n)) r = r.
Proof. unfold sleep. now destruct (n <? 0)%Z. Qed.

Lemma scalars_after_fetch_dvr (code : Z) (d : list (string * pyval float))
    (entries : list (string * string)) (ns na : Z) r :
  activity_entries d entries -> guide_counts d ns na ->
  let out := fetch_dvr self (Response code (Some (PyDict d))) in
  snd out = Ok tt
  /\ shows (replay (fst out) r) = float_of_int ns
  /\ airings (replay (fst out) r) = float_of_int na.
Proof.
  intros Ha Hg. cbv zeta.
  rewrite (fetch_dvr_run _ _ _ _ Ha), (publish_guide_run _ _ _ Hg).
  split; [reflexivity|]. simpl fst.
  rewrite app_comm_cons, app_comm_cons, replay_app. split; reflexivity.
Qed.

(** The registry after one cycle whose three replies have the expected
    shape. *)
Lemma cycle_registry (c1 c2 c3 : Z) (d : list (string * pyval float))
    (activity programs : list (string * string))
    (cs : list (list (string * pyval float))) (ns na : Z) r :
  activity_entries d activity -> guide_counts d ns na ->
  replay (fst (cycle self
     {| dvr_reply := Response c1 (Some (PyDict d));
        programs_reply := Response c2 (Some (PyDict (str_items programs)));
        clients_reply :=
          Response c3 (Some (PyList (map (fun c => PyDict c) cs))) |})) r
  = {| streams := populate (map (fun e => stream_key (snd e)) activity) [];
       recordings := populate (map recording_key programs) [];
       shows := float_of_int ns;
       airings := float_of_int na;
       clients := populate (map client_key cs) [] |}.
Proof.
  intros Ha Hg.
  destruct (scalars_after_fetch_dvr c1 d activity ns na r Ha Hg)
    as (Hok & Hs & Hai).
  pose proof (streams_after_fetch_dvr self c1 d activity r Ha) as Hst.
  pose proof (fetch_recordings_run self c2 programs) as H2.
  pose proof (fetch_clients_run self c3 cs) as H3.
  set (t2 := Get _ :: _) in H2. set (t3 := Get _ :: _) in H3.
  rewrite (cycle_run
             {| dvr_reply := Response c1 (Some (PyDict d));
                programs_reply :=
                  Response c2 (Some (PyDict (str_items programs)));
                clients_reply :=
                  Response c3 (Some (PyList (map (fun c => PyDict c) cs))) |}
             _ t2 t3 (ran_ok _ Hok) H2 H3).
  cbn [fst]. rewrite !replay_app, sleep_foreign.
  set (r1 := replay (fst (fetch_dvr self (Response c1 (Some (PyDict d))))) r)
    in *.
  pose proof (fetch_recordings_foreign
                (Response c2 (Some (PyDict (str_items programs)))) r1) as F.
  pose proof (recordings_after_fetch self c2 programs r1) as Hre.
  cbv zeta in F. rewrite H2 in F, Hre. cbn [fst] in F, Hre.
  destruct F as (F1 & F2 & F3 & F4).
  set (r2 := replay t2 r1) in *.
  pose proof (fetch_clients_foreign
                (Response c3 (Some (PyList (map (fun c => PyDict c) cs)))) r2)
    as G.
  pose proof (clients_after_fetch self c3 cs r2) as Hcl.
  cbv zeta in G. rewrite H3 in G, Hcl. cbn [fst] in G, Hcl.
  destruct G as (G1 & G2 & G3 & G4).
  apply registry_eq; cbn [streams recordings shows airings clients];
    congruence.
Qed.

(** X16. A cycle carries nothing over: when its three replies have the
    expected shape, the registry after the cycle is determined by the
    replies alone, whatever the registry held before. *)
Theorem cycle_overwrites_registry (c1 c2 c3 : Z)
    (d : list (string * pyval float))
    (activity programs : list (string * string))
    (cs : list (list (string * pyval float))) (ns na : Z) r r' :
  activity_entries d activity -> guide_counts d ns na ->
  let c :=
    {| dvr_reply := Response c1 (Some (PyDict d));
       programs_reply := Response c2 (Some (PyDict (str_items programs)));
       clients_reply :=
         Response c3 (Some (PyList (map (fun c => PyDict c) cs))) |} in
  replay (fst (cycle self c)) r = replay (fst (cycle self c)) r'
  /\ replay (fst (cycle self c)) (replay (fst (cycle self c)) r)
     = replay (fst (cycle self c)) r.
Proof.
  intros Ha Hg. cbv zeta.
  now rewrite !(cycle_registry c1 c2 c3 d activity programs cs ns na _ Ha Hg).
Qed.

(** X17. After any number of completed cycles followed by a cycle whose
    replies have the expected shape, the registry shows that last cycle
    only: every family holds the entries of the last replies, the plain
    gauges the last guide counts. *)
Theorem loop_registry_is_last_cycle (before : list (cycle_replies float))
    (c1 c2 c3 : Z) (d : list (string * pyval float))
    (activity programs : list (string * string))
    (cs : list (list (string * pyval float))) (ns na : Z) r :
  (forall c', In c' before -> snd (cycle self c') = Ok tt) ->
  activity_entries d activity -> guide_counts d ns na ->
  let c :=
    {| dvr_reply := Response c1 (Some (PyDict d));
       programs_reply := Response c2 (Some (PyDict (str_items programs)));
       clients_reply :=
         Response c3 (Some (PyList (map (fun c => PyDict c) cs))) |} in
  replay (fst (run_metrics_loop self (before ++ [c]))) r
  = {| streams := populate (map (fun e => stream_key (snd e)) activity) [];
       recordings := populate (map recording_key programs) [];
       shows := float_of_int ns;
       airings := float_of_int na;
       clients := populate (map client_key cs) [] |}.
Proof.
  intros Hb Ha Hg. cbv zeta. rewrite (loop_goes_on self _ _ Hb). cbn [fst].
  rewrite replay_app.
  assert (E : forall c, fst (run_metrics_loop self [c]) = fst (cycle self c)).
  { intros c. simpl. destruct (cycle self c) as [t [[]|e]]; simpl;
      [apply app_nil_r | reflexivity]. }
  rewrite E. apply (cycle_registry c1 c2 c3 d activity programs cs ns na _ Ha Hg).
Qed.

(** *** How many samples *)

Lemma put_fresh key s : ~ In key (keys s) -> put key s = s ++ [(key, one)].
Proof.
  induction s as [|[k v] s IH]; intros H.
  - apply put_nil.
  - rewrite put_cons. destruct (key_eq_dec k key) as [->|E].
    + exfalso. apply H. now left.
    + simpl. rewrite IH; [reflexivity|]. intros Hin. apply H. now right.
Qed.

Lemma populate_fresh ks s :
  NoDup ks -> (forall k, In k ks -> ~ In k (keys s)) ->
  populate ks s = s ++ map (fun k => (k, one)) ks.
Proof.
  intros Hn. revert s. induction Hn as [|k ks Hk _ IH]; intros s Hs.
  - simpl. now rewrite app_nil_r.
  - change (populate (k :: ks) s) with (populate ks (put k s)).
    rewrite (put_fresh k s) by (apply Hs; now left).
    rewrite IH.
    + now rewrite <- app_assoc.
    + intros k' Hk' Hin. unfold keys in Hin. rewrite map_app in Hin.
      apply in_app_or in Hin as [Hin|[<-|[]]].
      * apply (Hs k'); [now right | exact Hin].
      * contradiction.
Qed.

Lemma put_at_most_one key s : length (put key s) <= S (length s).
Proof.
  induction s as [|[k v] s IH].
  - rewrite put_nil. simpl. lia.
  - rewrite put_cons. destruct (key_eq_dec k key); simpl; lia.
Qed.

Lemma populate_at_most ks s : length (populate ks s) <= length s + length ks.
Proof.
  revert s. induction ks as [|k ks IH]; intros s; simpl; [lia|].
  change (populate (k :: ks) s) with (populate ks (put k s)).
  pose proof (IH (put k s)). pose proof (put_at_most_one k s). lia.
Qed.

(** X18. A program name is a key of the response object and the first label
    of its sample: with names that differ (as the keys of an object do),
    [channels_recordings] holds exactly one sample per program, in the order
    of the response, each at 1. *)
Theorem one_recording_per_program (code : Z)
    (programs : list (string * string)) r :
  NoDup (map fst programs) ->
  recordings (replay (fst (fetch_recordings self
                (Response code (Some (PyDict (str_items programs)))))) r)
  = map (fun e => (recording_key e, one)) programs.
Proof.
  intros Hn. rewrite recordings_after_fetch, populate_fresh.
  - simpl. now rewrite map_map.
  - apply (NoDup_map_inv (fun k => hd EmptyString k)).
    rewrite map_map. exact Hn.
  - intros k _ [].
Qed.

(** X19. [channels_streams] never holds more samples than the activity has
    entries; entries with the same label tuple share one sample, and when
    the tuples differ there is one sample per entry, in the order of the
    response. *)
Theorem streams_at_most_one_per_entry (code : Z)
    (d : list (string * pyval float)) (entries : list (string * string)) r :
  activity_entries d entries ->
  let after :=
    streams (replay (fst (fetch_dvr self (Response code (Some (PyDict d))))) r)
  in
  length after <= length entries
  /\ (NoDup (map (fun e => stream_key (snd e)) entries) ->
      after = map (fun e => (stream_key (snd e), one)) entries).
Proof.
  intros Ha. cbv zeta. rewrite (streams_after_fetch_dvr self _ _ _ _ Ha).
  split.
  - pose proof (populate_at_most
                  (map (fun e => stream_key (snd e)) entries) []) as H.
    rewrite length_map in H. exact H.
  - intros Hn. rewrite populate_fresh; [|exact Hn|intros k _ []].
    simpl. now rewrite map_map.
Qed.

(** *** The geo lookups of a dvr sub-step *)

Lemma lookups_app t1 t2 : lookups (t1 ++ t2) = lookups t1 ++ lookups t2.
Proof. apply flat_map_app. Qed.

Lemma extract_ip_truthy (text : string) :
  truthy (Extract.extract_ip text) = true.
Proof. apply truthy_nonempty, ExtractFacts.extract_ip_nonempty. Qed.

Lemma lookups_stream_events (text : string) :
  lookups (stream_events text)
  = if (Extract.extract_ip text =? "127.0.0.1")%string then []
    else [Extract.extract_ip text].
Proof.
  unfold stream_events. rewrite lookups_app, geo_events, extract_ip_truthy.
  simpl. now destruct (Extract.extract_ip text =? "127.0.0.1")%string.
Qed.

Lemma gauge_set_no_lookup (sc : scalar) (v : pyval float) :
  Forall (fun e : event float =>
            match e with GeoLookup _ => False | _ => True end)
    (fst (gauge_set sc v)).
Proof.
  unfold gauge_set, py_float.
  destruct v as [|b|n|x|str|l|items]; simpl;
    try destruct (representable n); try destruct (float_of_str str);
    simpl; repeat constructor.
Qed.

Lemma publish_guide_no_lookup (v : pyval float) :
  lookups (fst (publish_guide v)) = [].
Proof.
  assert (H : Forall (fun e : event float =>
                        match e with GeoLookup _ => False | _ => True end)
                (fst (publish_guide v))).
  { unfold publish_guide.
    apply bind_all; [rewrite dict_get_silent; constructor | intros guide].
    apply bind_all; [rewrite dict_get_silent; constructor | intros num_shows].
    apply bind_all; [apply gauge_set_no_lookup | intros _].
    apply bind_all; [rewrite dict_get_silent; constructor | intros num_airings].
    apply gauge_set_no_lookup. }
  induction H as [|e t He _ IH]; simpl; [reflexivity|].
  rewrite IH. destruct e; simpl in *; try reflexivity; contradiction.
Qed.

(** X20. The geo backend is asked once for every activity entry whose ip is
    not ["127.0.0.1"], in the order of the entries, and for nothing else:
    an ip that occurs in several entries is looked up each time, and any
    dotted quad is passed on as it is. *)
Theorem geo_lookups_of_dvr (code : Z) (d : list (string * pyval float))
    (entries : list (string * string)) :
  activity_entries d entries ->
  lookups (fst (fetch_dvr self (Response code (Some (PyDict d)))))
  = filter (fun ip => negb (ip =? "127.0.0.1")%string)
      (map (fun e => Extract.extract_ip (snd e)) entries).
Proof.
  intros Ha. rewrite (fetch_dvr_run self _ _ _ Ha). cbn [fst].
  change (lookups (Get ?u :: Clear Streams :: ?t)) with (lookups t).
  rewrite lookups_app, publish_guide_no_lookup, app_nil_r.
  induction entries as [|e entries IH]; [reflexivity|].
  change (flat_map ?f (e :: entries)) with (f e ++ flat_map f entries).
  rewrite lookups_app, lookups_stream_events.
  assert (IH' : lookups (flat_map (fun e => stream_events (snd e)) entries)
                = filter (fun ip => negb (ip =? "127.0.0.1")%string)
                    (map (fun e => Extract.extract_ip (snd e)) entries)).
  { clear IH Ha.
    induction entries as [|e' entries IH]; [reflexivity|].
    change (flat_map ?f (e' :: entries)) with (f e' ++ flat_map f entries).
    rewrite lookups_app, lookups_stream_events, IH. simpl.
    now destruct (Extract.extract_ip (snd e') =? "127.0.0.1")%string. }
  rewrite IH'. simpl.
  now destruct (Extract.extract_ip (snd e) =? "127.0.0.1")%string.
Qed.

(** X21. When the ip of a stream is not ["127.0.0.1"] and the backend knows
    its location, the two coordinates are the latitude and longitude labels
    of the sample, rendered with [str]. *)
Theorem located_stream_labels (text : string) (latitude longitude : float) :
  Extract.extract_ip text <> "127.0.0.1"%string ->
  geolite2_lookup (Extract.extract_ip text)
  = GeoInfo (Some (latitude, longitude)) ->
  stream_key text
  = [Extract.extract_ip text; Extract.extract_channel text;
     py_repr (PyFloat latitude); py_repr (PyFloat longitude)].
Proof.
  intros Hne Hgeo. unfold stream_key, coordinates, geo_coordinates, lookup_ip.
  rewrite extract_ip_truthy.
  apply String.eqb_neq in Hne. rewrite Hne. simpl. now rewrite Hgeo.
Qed.

(** X22. The status code of a response is never looked at: a reply with any
    code, an error code included, whose body is an object without
    [activity] and without [guide] goes through, empties [channels_streams]
    and sets both plain gauges to 0. *)
Theorem dvr_object_without_fields (code : Z)
    (d : list (string * pyval float)) r :
  lookup "activity" d = None -> lookup "guide" d = None ->
  let out := fetch_dvr self (Response code (Some (PyDict d))) in
  snd out = Ok tt
  /\ streams (replay (fst out) r) = []
  /\ shows (replay (fst out) r) = float_of_int 0
  /\ airings (replay (fst out) r) = float_of_int 0.
Proof.
  intros Ha Hg. cbv zeta.
  assert (Ha' : activity_entries d []) by (left; now split).
  assert (Hg' : guide_counts d 0 0) by now apply guide_absent.
  destruct (scalars_after_fetch_dvr code d [] 0 0 r Ha' Hg') as (H1 & H2 & H3).
  split; [exact H1|]. split; [|now split].
  now rewrite (streams_after_fetch_dvr self _ _ _ _ Ha').
Qed.

(** *** The requests of the loop *)

Lemma fst_bind {A B : Type} (m : @M float A) (k : A -> @M float B) :
  fst (bind m k)
  = fst m ++ match snd m with Ok a => fst (k a) | Raise _ => [] end.
Proof.
  destruct m as [t [a|e]]; simpl; [now destruct (k a) | now rewrite app_nil_r].
Qed.

Lemma bind_requests {A B : Type} (Q : list string -> Prop)
    (m : @M float A) (k : A -> @M float B) :
  (forall l1 l2, Q l1 -> Q l2 -> Q (l1 ++ l2)) -> Q [] ->
  Q (requests (fst m)) -> (forall a, Q (requests (fst (k a)))) ->
  Q (requests (fst (bind m k))).
Proof.
  intros Happ Hnil Hm Hk. rewrite fst_bind, requests_app.
  apply Happ; [exact Hm|]. destruct (snd m); [apply Hk | exact Hnil].
Qed.

Lemma loop_requests (server : list (cycle_replies float)) :
  Forall (fun url => In url (endpoints (channels_api self)))
    (requests (fst (run_metrics_loop self server))).
Proof.
  set (Q := Forall (fun url => In url (endpoints (channels_api self)))).
  assert (Happ : forall l1 l2, Q l1 -> Q l2 -> Q (l1 ++ l2))
    by (intros; apply Forall_app; now split).
  assert (Hnil : Q []) by constructor.
  induction server as [|c server IH]; [exact Hnil|].
  change (run_metrics_loop self (c :: server))
    with (bind (cycle self c) (fun _ => run_metrics_loop self server)).
  apply bind_requests; try assumption; [|intros _; exact IH].
  unfold cycle. repeat (apply bind_requests; try assumption; try intros _).
  - destruct (fetch_dvr_requests (dvr_reply c)) as [-> _].
    constructor; [simpl; auto | constructor].
  - destruct (fetch_recordings_requests (programs_reply c)) as [-> _].
    constructor; [simpl; auto | constructor].
  - destruct (fetch_clients_requests (clients_reply c)) as [-> _].
    constructor; [simpl; auto | constructor].
  - unfold sleep. destruct (_ <? 0)%Z; exact Hnil.
Qed.

(** *** The exceptions of the labelled sub-steps *)

Lemma bind_only {A B : Type} (P : exn -> Prop) (m : @M float A)
    (k : A -> @M float B) :
  (forall e, snd m = Raise e -> P e) ->
  (forall a e, snd (k a) = Raise e -> P e) ->
  forall e, snd (bind m k) = Raise e -> P e.
Proof.
  destruct m as [t [a|e0]]; simpl; intros Hm Hk e.
  - specialize (Hk a e). now destruct (k a).
  - intros [= <-]. now apply Hm.
Qed.

Lemma for_each_only {A : Type} (P : exn -> Prop) (l : list A)
    (body : A -> @M float unit) :
  (forall x e, snd (body x) = Raise e -> P e) ->
  forall e, snd (for_each l body) = Raise e -> P e.
Proof.
  intros H. induction l as [|x l IH]; simpl; [discriminate|].
  apply bind_only; [apply H | intros _; exact IH].
Qed.

Lemma recording_entry_shape_errors (name : string) (v : pyval float) (e : exn) :
  snd (recording_entry name v) = Raise e -> e = AttributeError \/ e = TypeError.
Proof. destruct v; simpl; intros [= <-]; now right. Qed.

Lemma client_entry_shape_errors (v : pyval float) (e : exn) :
  snd (client_entry v) = Raise e -> e = AttributeError \/ e = TypeError.
Proof. destruct v; simpl; intros [= <-]; now left. Qed.

(** X25. Once the body is decoded, the only exceptions [fetch_recordings]
    and [fetch_clients] raise are [AttributeError] and [TypeError], both
    from a body of the wrong shape: [labels] is given the names [__init__]
    declares and [set] the number 1, so neither of them ever refuses. *)
Theorem decoded_sub_steps_raise_shape_errors_only (code : Z)
    (v : pyval float) (e : exn) :
  (snd (fetch_recordings self (Response code (Some v))) = Raise e ->
   e = AttributeError \/ e = TypeError)
  /\ (snd (fetch_clients self (Response code (Some v))) = Raise e ->
      e = AttributeError \/ e = TypeError).
Proof.
  split.
  - unfold fetch_recordings, requests_get, json. simpl.
    set (rest := bind (dict_items _) _).
    assert (H : forall e, snd rest = Raise e ->
                          e = AttributeError \/ e = TypeError).
    { subst rest. apply bind_only.
      - destruct v; simpl; intros e' [= <-]; now left.
      - intros items. apply for_each_only. intros item.
        apply recording_entry_shape_errors. }
    specialize (H e). now destruct rest.
  - unfold fetch_clients, requests_get, json. simpl.
    set (rest := bind (iterate _) _).
    assert (H : forall e, snd rest = Raise e ->
                          e = AttributeError \/ e = TypeError).
    { subst rest. apply bind_only.
      - destruct v; simpl; intros e' [= <-]; now right.
      - intros entries. apply for_each_only.
        apply client_entry_shape_errors. }
    specialize (H e). now destruct rest.
Qed.

Lemma loop_first_request (c : cycle_replies float)
    (later : list (cycle_replies float)) :
  exists rest,
    fst (run_metrics_loop self (c :: later))
    = Get (channels_api self ++ "/dvr") :: rest.
Proof.
  change (run_metrics_loop self (c :: later))
    with (bind (cycle self c) (fun _ => run_metrics_loop self later)).
  unfold cycle. rewrite !fst_bind.
  destruct (fetch_dvr_trace (dvr_reply c)) as (rest & -> & _).
  eexists. reflexivity.
Qed.

End ExporterMore.

(* ------------------------------------------------------------------ *)
(** ** [main] *)

Section MainFacts.
Context {float : Type} `{RT : Runtime float}.
Variable py_int : string -> option Z.
Variable can_bind : Z -> bool.

Lemma main_requests_poll (port : Z) (t : list (event float)) :
  main_requests (StartHttpServer port :: map (@Poll float) t) = requests t.
Proof.
  change (main_requests (StartHttpServer port :: ?l)) with (main_requests l).
  induction t as [|e t IH]; [reflexivity|].
  unfold main_requests, requests in *. simpl. rewrite IH. now destruct e.
Qed.

(** X23. Whatever the environment and whatever the API replies, [main]
    starts the HTTP server at most once and before anything else, and every
    request it sends goes to one of the three paths under [CHANNELS_API]
    (under [http://localhost:8089] when the variable is not set). *)
Theorem main_serves_then_polls_configured_api
    (environ : list (string * string)) (server : list (cycle_replies float)) :
  let out := main py_int can_bind environ server in
  Forall (fun url =>
            In url (endpoints
                      (getenv environ "CHANNELS_API" "http://localhost:8089")))
    (main_requests (fst out))
  /\ (fst out = []
      \/ exists port t, fst out = StartHttpServer port :: map (@Poll float) t).
Proof.
  cbv zeta. unfold main.
  destruct (py_int (getenv environ "POLLING_INTERVAL_SECONDS" "5"))
    as [polling|]; [|split; [constructor | now left]].
  destruct (py_int (getenv environ "EXPORTER_PORT" "9877"))
    as [port|]; [|split; [constructor | now left]].
  cbv zeta. destruct (can_bind port).
  - set (app_metrics := {| channels_api := _; polling_interval_seconds := _ |}).
    pose proof (loop_requests app_metrics server) as H.
    destruct (run_metrics_loop app_metrics server) as [t res]. cbn [fst] in *.
    split; [now rewrite main_requests_poll | right; now exists port, t].
  - split; [constructor | right; now exists port, []].
Qed.

(** X24. With at least one cycle to run, [main] sends no request exactly
    when [int] refuses [POLLING_INTERVAL_SECONDS] or [EXPORTER_PORT], or the
    HTTP server cannot bind its port; in every other case the first request
    it sends is the one to [/dvr] under [CHANNELS_API]. *)
Theorem main_polls_unless_misconfigured (environ : list (string * string))
    (c : cycle_replies float) (later : list (cycle_replies float)) :
  let sent := main_requests (fst (main py_int can_bind environ (c :: later))) in
  (sent = []
   <-> (py_int (getenv environ "POLLING_INTERVAL_SECONDS" "5") = None
        \/ py_int (getenv environ "EXPORTER_PORT" "9877") = None
        \/ exists port,
             py_int (getenv environ "EXPORTER_PORT" "9877") = Some port
             /\ can_bind port = false))
  /\ (sent = []
      \/ exists rest,
           sent
           = (getenv environ "CHANNELS_API" "http://localhost:8089" ++ "/dvr")%string
               :: rest).
Proof.
  cbv zeta. unfold main.
  destruct (py_int (getenv environ "POLLING_INTERVAL_SECONDS" "5"))
    as [polling|];
    [|split; [split; [now left | reflexivity] | now left]].
  destruct (py_int (getenv environ "EXPORTER_PORT" "9877"))
    as [port|];
    [|split; [split; [right; now left | reflexivity] | now left]].
  cbv zeta. destruct (can_bind port) eqn:Hb.
  - set (app_metrics := {| channels_api := _; polling_interval_seconds := _ |}).
    destruct (loop_first_request app_metrics c later) as [rest E].
    destruct (run_metrics_loop app_metrics (c :: later)) as [t res].
    cbn [fst] in *. subst t. rewrite main_requests_poll. split.
    + split; [discriminate|].
      intros [H|[H|(port' & H & Hb')]]; try discriminate.
      injection H as <-. congruence.
    + right. now exists (requests rest).
  - split; [|now left]. split; [|reflexivity].
    intros _. right. right. now exists port.
Qed.

End MainFacts.

(* ------------------------------------------------------------------ *)
(** ** The further properties at the concrete world *)

Module MoreChecks.
Import Demo DemoMore.
Local Open Scope string_scope.
Local Open Scope list_scope.

Lemma completed_cycle_requests_and_sleep_witness :
  snd (cycle self healthy) = Ok tt
  /\ requests (fst (cycle self healthy))
     = ["http://localhost:8089/dvr"; "http://localhost:8089/dvr/programs";
        "http://localhost:8089/dvr/clients/info"]
  /\ sleeps (fst (cycle self healthy)) = [5%Z].
Proof.
  assert (H : snd (cycle self healthy) = Ok tt) by reflexivity.
  split; [exact H|].
  destruct (completed_cycle_requests_and_sleep self healthy H) as (R & S & _).
  split; [exact R | exact S].
Defined.


Lemma dvr_body_not_object_witness :
  is_dict (PyList ([] : list (pyval Z))) = false
  /\ fetch_dvr self (Response 200 (Some (PyList [])))
     = ([Get "http://localhost:8089/dvr"], Raise AttributeError).
Proof.
  split; [reflexivity|].
  exact (proj1 (dvr_body_not_object self 200 (PyList []) fresh eq_refl)).
Defined.

Lemma dvr_activity_not_object_witness :
  lookup "activity" [("activity", PyList ([] : list (pyval Z)))]
  = Some (PyList [])
  /\ is_dict (PyList ([] : list (pyval Z))) = false
  /\ streams (replay (fst (fetch_dvr self
        (Response 200 (Some (PyDict [("activity", PyList [])]))))) warm) = []
  /\ shows (replay (fst (fetch_dvr self
        (Response 200 (Some (PyDict [("activity", PyList [])]))))) warm)
     = shows warm.
Proof.
  split; [reflexivity|]. split; [reflexivity|].
  destruct (dvr_activity_not_object self 200 [("activity", PyList [])]
              (PyList []) warm eq_refl eq_refl) as (_ & S & H & _).
  split; [exact S | exact H].
Defined.

Lemma dvr_activity_value_not_string_witness :
  lookup "activity"
    [("activity", PyDict (str_items activity ++ [("a2", (PyInt 3 : pyval Z))]))]
  = Some (PyDict (str_items activity ++ [("a2", PyInt 3)]))
  /\ is_str (PyInt 3 : pyval Z) = false
  /\ snd (fetch_dvr self (Response 200 (Some (PyDict
        [("activity", PyDict (str_items activity ++ [("a2", PyInt 3)]))]))))
     = Raise TypeError.
Proof.
  split; [reflexivity|]. split; [reflexivity|].
  destruct (dvr_activity_value_not_string self 200
              [("activity", PyDict (str_items activity ++ [("a2", PyInt 3)]))]
              activity "a2" (PyInt 3) [] fresh eq_refl eq_refl) as (E & _).
  cbv zeta in E. now rewrite E.
Defined.

Lemma programs_body_not_object_witness :
  is_dict (PyList ([] : list (pyval Z))) = false
  /\ recordings (replay (fst (fetch_recordings self
        (Response 200 (Some (PyList []))))) warm) = [].
Proof.
  split; [reflexivity|].
  exact (proj2 (programs_body_not_object self 200 (PyList []) warm eq_refl)).
Defined.

Lemma programs_info_not_string_witness :
  is_str (PyNone : pyval Z) = false
  /\ recordings (replay (fst (fetch_recordings self
        (Response 200
           (Some (PyDict (str_items programs ++ [("bad", PyNone)])))))) fresh)
     = populate (map recording_key programs) [].
Proof.
  split; [reflexivity|].
  exact (proj2 (programs_info_not_string self 200 programs "bad" PyNone []
                  fresh eq_refl)).
Defined.

Lemma clients_body_not_list_witness :
  is_list (PyNone : pyval Z) = false
  /\ clients (replay (fst (fetch_clients self (Response 200 (Some PyNone))))
                warm) = []
  /\ snd (fetch_clients self (Response 200 (Some PyNone))) = Raise TypeError.
Proof.
  split; [reflexivity|].
  destruct (clients_body_not_list self 200 PyNone warm eq_refl)
    as (C & _ & T & _).
  split; [exact C | exact (T eq_refl eq_refl)].
Defined.

Lemma clients_entry_not_object_witness :
  is_dict (PyStr "x" : pyval Z) = false
  /\ clients (replay (fst (fetch_clients self
        (Response 200
           (Some (PyList (map (fun c => PyDict c) [client] ++ [PyStr "x"]))))))
        fresh)
     = populate (map client_key [client]) [].
Proof.
  split; [reflexivity|].
  exact (proj2 (clients_entry_not_object self 200 [client] (PyStr "x") []
                  fresh eq_refl)).
Defined.

Lemma demo_activity : activity_entries dvr_fields activity.
Proof. right. reflexivity. Qed.

Lemma demo_guide : guide_counts dvr_fields 40 900.
Proof.
  apply guide_given
    with (g := [("num_shows", PyInt 40%Z); ("num_airings", PyInt 900%Z)]);
    [reflexivity | now apply field_given | now apply field_given].
Qed.

Lemma cycle_overwrites_registry_witness :
  activity_entries dvr_fields activity
  /\ guide_counts dvr_fields 40 900
  /\ replay (fst (cycle self healthy)) fresh
     = replay (fst (cycle self healthy)) warm.
Proof.
  split; [exact demo_activity|]. split; [exact demo_guide|].
  exact (proj1 (cycle_overwrites_registry self 200 200 200 dvr_fields activity
                  programs [client] 40 900 fresh warm demo_activity demo_guide)).
Defined.

Lemma loop_registry_is_last_cycle_witness :
  (forall c', In c' [healthy] -> snd (cycle self c') = Ok tt)
  /\ activity_entries dvr_fields activity
  /\ guide_counts dvr_fields 40 900
  /\ shows (replay (fst (run_metrics_loop self ([healthy] ++ [healthy]))) fresh)
     = 40%Z.
Proof.
  assert (H : forall c', In c' [healthy] -> snd (cycle self c') = Ok tt)
    by (intros c' [<-|[]]; reflexivity).
  split; [exact H|]. split; [exact demo_activity|]. split; [exact demo_guide|].
  change healthy with
    {| dvr_reply := Response 200 (Some (PyDict dvr_fields));
       programs_reply := Response 200 (Some (PyDict (str_items programs)));
       clients_reply :=
         Response 200 (Some (PyList (map (fun c => PyDict c) [client]))) |}
    at 2.
  now rewrite (loop_registry_is_last_cycle self [healthy] 200 200 200
                 dvr_fields activity programs [client] 40 900 fresh H
                 demo_activity demo_guide).
Defined.

Lemma one_recording_per_program_witness :
  NoDup (map fst programs)
  /\ recordings (replay (fst (fetch_recordings self (programs_reply healthy)))
                   warm)
     = [(["MyShow"; "REC"; "ch5"], 1%Z)].
Proof.
  assert (H : NoDup (map fst programs))
    by (constructor; [intros [] | constructor]).
  split; [exact H|].
  exact (one_recording_per_program self 200 programs warm H).
Defined.

Lemma streams_at_most_one_per_entry_witness :
  activity_entries dvr_fields activity
  /\ length (streams (replay (fst (fetch_dvr self (dvr_reply healthy))) warm))
     <= length activity.
Proof.
  split; [exact demo_activity|].
  exact (proj1 (streams_at_most_one_per_entry self 200 dvr_fields activity warm
                  demo_activity)).
Defined.

Lemma geo_lookups_of_dvr_witness :
  activity_entries
    [("activity", (PyDict (str_items two_streams) : pyval Z))] two_streams
  /\ lookups (fst (fetch_dvr self
        (Response 200
           (Some (PyDict [("activity", PyDict (str_items two_streams))])))))
     = ["10.0.0.5"].
Proof.
  assert (H : activity_entries
                [("activity", (PyDict (str_items two_streams) : pyval Z))]
                two_streams)
    by (right; reflexivity).
  split; [exact H|].
  now rewrite (geo_lookups_of_dvr self 200 _ two_streams H).
Defined.

Lemma located_stream_labels_witness :
  Extract.extract_ip "ch12 Streaming from 10.0.0.5" <> "127.0.0.1"
  /\ geolite2_lookup (Extract.extract_ip "ch12 Streaming from 10.0.0.5")
     = GeoInfo (Some (52%Z, 13%Z))
  /\ stream_key "ch12 Streaming from 10.0.0.5"
     = ["10.0.0.5"; "ch12"; "<repr>"; "<repr>"].
Proof.
  assert (H : Extract.extract_ip "ch12 Streaming from 10.0.0.5" <> "127.0.0.1")
    by discriminate.
  split; [exact H|]. split; [reflexivity|].
  exact (located_stream_labels "ch12 Streaming from 10.0.0.5" 52%Z 13%Z H
           eq_refl).
Defined.

Lemma dvr_object_without_fields_witness :
  lookup "activity" [("error", (PyStr "internal" : pyval Z))] = None
  /\ lookup "guide" [("error", (PyStr "internal" : pyval Z))] = None
  /\ streams (replay (fst (fetch_dvr self
        (Response 500 (Some (PyDict [("error", PyStr "internal")]))))) warm)
     = []
  /\ shows (replay (fst (fetch_dvr self
        (Response 500 (Some (PyDict [("error", PyStr "internal")]))))) warm)
     = 0%Z.
Proof.
  split; [reflexivity|]. split; [reflexivity|].
  destruct (dvr_object_without_fields self 500
              [("error", PyStr "internal")] warm eq_refl eq_refl)
    as (_ & S & H & _).
  split; [exact S | exact H].
Defined.

End MoreChecks.
